(** * The instance lifecycle manager of the WhatsApp HTTP gateway

    A shallow embedding of [index.js] (the latest iteration under
    [src/unnamed/part_000]), [middleware/basicAuth.js] and
    [models/Session.js].

    - The three process-global objects [sessions], [qrCodes] and
      [initializingSessions] are plain objects: a finite map holds the
      properties the program stored.  A lookup is JavaScript's: a key that
      names a member of [Object.prototype] finds that member when nothing is
      stored under it.  [initWhatsApp] returns at once for such a key, so no
      socket, and with it no [connection.update] handler, ever exists for
      one.
    - The Mongo collection behind the [Session] model is a finite map from
      instance key to document.  The [sessions/<key>] auth folders and the
      multer upload files are finite sets of names: a key stands for its own
      folder, and the statements about folders are about the folder of the
      key at hand.  ([path.join] maps keys such as ["alice/."] or ["a/b"] to
      the folder of another key or into it; what the recursive [mkdirSync]
      and [rmSync] then do to the folders of other keys is not stated.)
    - Calls into the outside world (Mongo, the file system, Baileys, axios,
      qrcode) may throw.  Whether a given call throws is an input of each
      operation (an environment record), and the [try]/[catch]/[finally]
      structure of the source decides what happens next.
    - Time is the number of milliseconds since the epoch, as in a JS [Date].
    - Every handler runs as one step, except [initWhatsApp], which is split at
      its [await useMultiFileAuthState(folder)]: the initialization guard
      exists for exactly that window.
    - A request passes [cors()], [express.json()] and [basicAuth] before it
      reaches a route.
    - A connection event for a key may arrive at any time: the handler is
      tied to the key, and a socket that was replaced or logged out can still
      emit. *)

From Stdlib Require Import ZArith QArith Qround String Ascii List Bool Lia.
From stdpp Require Import gmap strings list.

Local Open Scope string_scope.
Local Open Scope Z_scope.

(** ** Data model *)

(** A live protocol-client handle (the object returned by [makeWASocket]);
    only its identity matters here. *)
Definition Sock := nat.

(** [models/Session.js]: the fields of a stored document.  A field that is
    [null] or was never set is [None].  [instanceKey] is the key of the
    document in the store; [createdAt] is never read, and [lastConnected],
    which the open branch writes, is not a path of the schema. *)
Record SessionDoc := mkDoc {
  connected : bool;
  qr : option string;
  qrGeneratedAt : option Z
}.

(** An entry of [qrCodes]: [{ qr: qrImage, generatedAt: new Date() }]. *)
Record QrData := mkQr {
  qd_qr : string;
  generatedAt : Z
}.

(** Who is waiting for a suspended [initWhatsApp] call. *)
Inductive Caller := ByStartSession | ByLoadSessions | ByTimer.

(** The content object handed to [sock.sendMessage]. *)
Inductive Content :=
| Text (message : string)
| Document (buffer mimetype fileName caption : string).

(** Calls made on a protocol-client handle, in the order they are made. *)
Inductive ProtoCall :=
| SockLogout (s : Sock)
| SockSendMessage (s : Sock) (jid : string) (c : Content).

Record State := mkState {
  sessions : gmap string Sock;
  qrCodes : gmap string QrData;
  initializingSessions : gmap string bool;
  db : gmap string SessionDoc;
  folders : gset string;
  uploads : gset string;
  timers : list (string * Z);
  awaiting : list (string * Caller);
  calls : list ProtoCall
}.

Definition set_sessions (f : gmap string Sock → gmap string Sock) (st : State) : State :=
  mkState (f (sessions st)) (qrCodes st) (initializingSessions st) (db st)
          (folders st) (uploads st) (timers st) (awaiting st) (calls st).

Definition set_qrCodes (f : gmap string QrData → gmap string QrData) (st : State) : State :=
  mkState (sessions st) (f (qrCodes st)) (initializingSessions st) (db st)
          (folders st) (uploads st) (timers st) (awaiting st) (calls st).

Definition set_initializing (f : gmap string bool → gmap string bool) (st : State) : State :=
  mkState (sessions st) (qrCodes st) (f (initializingSessions st)) (db st)
          (folders st) (uploads st) (timers st) (awaiting st) (calls st).

Definition set_db (f : gmap string SessionDoc → gmap string SessionDoc) (st : State) : State :=
  mkState (sessions st) (qrCodes st) (initializingSessions st) (f (db st))
          (folders st) (uploads st) (timers st) (awaiting st) (calls st).

Definition set_folders (f : gset string → gset string) (st : State) : State :=
  mkState (sessions st) (qrCodes st) (initializingSessions st) (db st)
          (f (folders st)) (uploads st) (timers st) (awaiting st) (calls st).

Definition set_uploads (f : gset string → gset string) (st : State) : State :=
  mkState (sessions st) (qrCodes st) (initializingSessions st) (db st)
          (folders st) (f (uploads st)) (timers st) (awaiting st) (calls st).

Definition set_timers (f : list (string * Z) → list (string * Z)) (st : State) : State :=
  mkState (sessions st) (qrCodes st) (initializingSessions st) (db st)
          (folders st) (uploads st) (f (timers st)) (awaiting st) (calls st).

Definition set_awaiting (f : list (string * Caller) → list (string * Caller)) (st : State) : State :=
  mkState (sessions st) (qrCodes st) (initializingSessions st) (db st)
          (folders st) (uploads st) (timers st) (f (awaiting st)) (calls st).

Definition set_calls (f : list ProtoCall → list ProtoCall) (st : State) : State :=
  mkState (sessions st) (qrCodes st) (initializingSessions st) (db st)
          (folders st) (uploads st) (timers st) (awaiting st) (f (calls st)).

(** Append at the end of a queue or a log. *)
Definition enqueue {A} (x : A) (l : list A) : list A := (l ++ [x])%list.

Definition record_call (c : ProtoCall) (st : State) : State :=
  set_calls (enqueue c) st.

(** The process right after start: empty registries, whatever the previous
    run left in the store and on disk. *)
Definition boot (d : gmap string SessionDoc) (fs : gset string) : State :=
  mkState ∅ ∅ ∅ d fs ∅ [] [] [].

(** ** JavaScript truthiness *)

(** [!s] is true for a string that is missing or empty. *)
Definition truthy (s : option string) : bool :=
  match s with
  | Some s => negb (String.eqb s "")
  | None => false
  end.

(** ** Plain objects used as maps *)

(** The members every plain object inherits from [Object.prototype]. *)
Definition object_prototype : list string :=
  [ "constructor"; "__defineGetter__"; "__defineSetter__"; "hasOwnProperty";
    "__lookupGetter__"; "__lookupSetter__"; "isPrototypeOf";
    "propertyIsEnumerable"; "toString"; "valueOf"; "__proto__"; "toLocaleString" ].

Definition inherited (k : string) : bool := bool_decide (k ∈ object_prototype).

(** What [o[k]] evaluates to: the stored property, else the inherited member
    (a function, or [Object.prototype] itself for ["__proto__"]), else
    [undefined]. *)
Inductive Found (V : Type) :=
| Stored (v : V)
| FromPrototype
| Missing.
Arguments Stored {V} v.
Arguments FromPrototype {V}.
Arguments Missing {V}.

Definition js_get {V} (o : gmap string V) (k : string) : Found V :=
  match o !! k with
  | Some v => Stored v
  | None => if inherited k then FromPrototype else Missing
  end.

(** [sessions[k]] in a condition: a handle object is truthy, and so is an
    inherited member. *)
Definition has_sock (st : State) (k : string) : bool :=
  match js_get (sessions st) k with Missing => false | _ => true end.

(** The guard of [k] is set: [initializingSessions] holds [true] under [k],
    as [initWhatsApp] stores it. *)
Definition guard_set (st : State) (k : string) : bool :=
  match initializingSessions st !! k with Some b => b | None => false end.

(** [initializingSessions[k]] in a condition. *)
Definition initializing (st : State) (k : string) : bool :=
  match js_get (initializingSessions st) k with
  | Stored b => b
  | FromPrototype => true
  | Missing => false
  end.

(** ** The [Session] model *)

(** An update document: [None] leaves the field alone, [Some v] sets it
    ([Some None] is [null]). *)
Record Update := mkUpdate {
  u_connected : option bool;
  u_qr : option (option string);
  u_qrGeneratedAt : option (option Z)
}.

Definition apply_update (u : Update) (d : SessionDoc) : SessionDoc :=
  mkDoc (default (connected d) (u_connected u))
        (default (qr d) (u_qr u))
        (default (qrGeneratedAt d) (u_qrGeneratedAt u)).

(** The document an upsert starts from: the schema's defaults. *)
Definition fresh_doc : SessionDoc := mkDoc false None None.

(** [Session.findOneAndUpdate({ instanceKey }, u, { upsert })]. *)
Definition findOneAndUpdate (k : string) (u : Update) (upsert : bool)
    (m : gmap string SessionDoc) : gmap string SessionDoc :=
  match m !! k with
  | Some d => <[k := apply_update u d]> m
  | None => if upsert then <[k := apply_update u fresh_doc]> m else m
  end.

(** [Session.findOneAndDelete({ instanceKey })]. *)
Definition findOneAndDelete (k : string) (m : gmap string SessionDoc) : gmap string SessionDoc :=
  delete k m.

(** A store call inside [try { await ... } catch (dbError) { log }]: when it
    throws, the store is as before and the handler goes on. *)
Definition try_db (ok : bool) (f : gmap string SessionDoc → gmap string SessionDoc)
    (st : State) : State :=
  if ok then set_db f st else st.

(** The update documents of the source. *)
Definition upd_placeholder : Update := mkUpdate (Some false) (Some None) (Some None).
Definition upd_qr (img : string) (t : Z) : Update := mkUpdate (Some false) (Some (Some img)) (Some (Some t)).
Definition upd_open : Update := mkUpdate (Some true) (Some None) (Some None).
Definition upd_clear_qr : Update := mkUpdate None (Some None) (Some None).

(** ** initWhatsApp *)

(** The [catch (error)] block: drop the handle and the cached code, rethrow. *)
Definition init_catch (k : string) (st : State) : State :=
  set_qrCodes (delete k) (set_sessions (delete k) st).

(** The [finally] block. *)
Definition init_finally (k : string) (st : State) : State :=
  set_initializing (delete k) st.

(** [InitReturned] carries the handle of the early [return
    sessions[instanceKey]] when a handle is stored under the key; no caller
    looks at the returned value. *)
Inductive InitBegin :=
| InitReturned (sock : option Sock)
| InitThrew
| InitAwaits.

(** [initWhatsApp(instanceKey)] up to its first [await].  [mkdir_ok] tells
    whether [fs.mkdirSync] succeeds when the folder is missing.  An early
    [return] and a [throw] both leave through [finally]. *)
Definition initWhatsApp_begin (mkdir_ok : bool) (who : Caller) (k : string)
    (st : State) : State * InitBegin :=
  if negb (truthy (Some k)) then
    (init_finally k (init_catch k st), InitThrew)
  else if has_sock st k || initializing st k then
    (init_finally k st, InitReturned (sessions st !! k))
  else
    let st1 := set_initializing <[k := true]> st in
    if decide (k ∈ folders st1) then
      (set_awaiting (enqueue (k, who)) st1, InitAwaits)
    else if mkdir_ok then
      (set_awaiting (enqueue (k, who)) (set_folders (λ s, {[k]} ∪ s) st1), InitAwaits)
    else
      (init_finally k (init_catch k st1), InitThrew).

(** The rest of [initWhatsApp], run when [useMultiFileAuthState] settles:
    [auth_ok] is whether it resolved, [mk] the handle [makeWASocket] returns
    ([None] when it throws).  The handle is stored, the handlers of
    [creds.update] and [connection.update] are registered (a failing
    registration is only logged), and the handle is returned.  The result is
    the returned handle, [None] for a rethrown error. *)
Definition initWhatsApp_resume (auth_ok : bool) (mk : option Sock) (k : string)
    (st : State) : State * option Sock :=
  if auth_ok then
    match mk with
    | Some sock => (init_finally k (set_sessions <[k := sock]> st), Some sock)
    | None => (init_finally k (init_catch k st), None)
    end
  else (init_finally k (init_catch k st), None).

(** ** The [connection.update] handler *)

Inductive Connection := ConnOpen | ConnClose | ConnConnecting.

(** The fields the handler destructures from [update]; [statusCode] stands for
    [lastDisconnect?.error?.output?.statusCode]. *)
Record ConnectionUpdate := mkConnUpdate {
  connection : option Connection;
  statusCode : option Z;
  update_qr : option string
}.

(** Baileys' [DisconnectReason.loggedOut]. *)
Definition loggedOut : Z := 401.

Definition shouldReconnect (u : ConnectionUpdate) : bool :=
  match statusCode u with
  | Some c => negb (Z.eqb c loggedOut)
  | None => true
  end.

(** The delay handed to [setTimeout] for the reconnect, in milliseconds. *)
Definition reconnect_delay : Z := 5000.

Record EventEnv := mkEventEnv {
  ev_toDataURL : option string;   (* [qrcode.toDataURL(qr)]; [None] when it throws *)
  ev_now_cache : Z;               (* [new Date()] stored in [qrCodes] *)
  ev_now_db : Z;                  (* [new Date()] stored in the document *)
  ev_qr_db_ok : bool;
  ev_open_db_ok : bool;
  ev_close_db_ok : bool;
  ev_rm_ok : bool;                (* [fs.rmSync] of the auth folder *)
  ev_delete_ok : bool
}.

(** [if (qr) { ... }] *)
Definition on_qr (env : EventEnv) (k : string) (u : ConnectionUpdate) (st : State) : State :=
  if truthy (update_qr u) then
    match ev_toDataURL env with
    | Some qrImage =>
        let st1 := set_qrCodes <[k := mkQr qrImage (ev_now_cache env)]> st in
        try_db (ev_qr_db_ok env) (findOneAndUpdate k (upd_qr qrImage (ev_now_db env)) true) st1
    | None => st
    end
  else st.

(** [if (connection === 'open') { ... }] *)
Definition on_open (env : EventEnv) (k : string) (st : State) : State :=
  let st1 := set_qrCodes (delete k) st in
  try_db (ev_open_db_ok env) (findOneAndUpdate k upd_open true) st1.

(** The [else] branch of [if (shouldReconnect)]: one [try] holds both the
    removal of the folder and the deletion of the document, so a throwing
    [rmSync] skips the deletion. *)
Definition cleanup_logged_out (rm_ok delete_ok : bool) (k : string) (st : State) : State :=
  if decide (k ∈ folders st) then
    if rm_ok then try_db delete_ok (findOneAndDelete k) (set_folders (λ s, s ∖ {[k]}) st)
    else st
  else try_db delete_ok (findOneAndDelete k) st.

(** [if (connection === 'close') { ... }] *)
Definition on_close (env : EventEnv) (k : string) (u : ConnectionUpdate) (st : State) : State :=
  let st1 := set_qrCodes (delete k) (set_sessions (delete k) st) in
  let st2 := try_db (ev_close_db_ok env) (findOneAndUpdate k upd_placeholder false) st1 in
  if shouldReconnect u then set_timers (enqueue (k, reconnect_delay)) st2
  else cleanup_logged_out (ev_rm_ok env) (ev_delete_ok env) k st2.

(** The handler registered by [sock.ev.on('connection.update', ...)] for the
    key [k]; it closes over the key, not over the handle. *)
Definition on_connection_update (env : EventEnv) (k : string) (u : ConnectionUpdate)
    (st : State) : State :=
  let st1 := on_qr env k u st in
  match connection u with
  | Some ConnOpen => on_open env k st1
  | Some ConnClose => on_close env k u st1
  | _ => st1
  end.

(** ** Responses *)

(** The HTTP status and the body fields the handlers set; the [error] text of
    a 5xx body and the timestamp of [/health] are left out.  A field the body
    does not carry, or carries as [null], is [None]. *)
Record Response := mkResp {
  r_code : Z;
  r_success : option bool;
  r_status : option string;
  r_message : option string;
  r_connected : option bool;
  r_qr : option string;
  r_expiresIn : option Z;
  r_needsRestart : option bool;
  r_activeSessions : option nat
}.

(** [res.status(code).json({ success, message, connected?, needsRestart? })] *)
Definition reply (code : Z) (success : bool) (message : string)
    (conn restart : option bool) : Response :=
  mkResp code (Some success) None (Some message) conn None None restart None.

(** [res.status(code).json({ status, message })] *)
Definition reply_status (code : Z) (status message : string) : Response :=
  mkResp code None (Some status) (Some message) None None None None None.

(** ** logoutInstance and [/logout] *)

(** [sock.logout()] may reject as well; its [catch] only logs, so the
    outcome changes nothing.  On an inherited member [sock.logout] is not a
    function: the [TypeError] is caught in the same place, before any call
    reaches a protocol client. *)
Record LogoutEnv := mkLogoutEnv {
  lo_rm_ok : bool;       (* [fs.rmSync] of the auth folder *)
  lo_delete_ok : bool    (* [Session.findOneAndDelete] *)
}.

(** [try { const sock = sessions[k]; if (sock) await sock.logout() }
    catch (logoutError) { log }] *)
Definition logout_socket (k : string) (st : State) : State :=
  match js_get (sessions st) k with
  | Stored sock => record_call (SockLogout sock) st
  | FromPrototype => st
  | Missing => st
  end.

Definition logoutInstance (env : LogoutEnv) (k : string) (st : State) : State * Response :=
  if negb (truthy (Some k)) then (st, reply_status 200 "error" "instanceKey is required")
  else
    let st1 := logout_socket k st in
    let st2 := set_qrCodes (delete k) (set_sessions (delete k) st1) in
    let st3 := if decide (k ∈ folders st2) then
                 if lo_rm_ok env then set_folders (λ s, s ∖ {[k]}) st2 else st2
               else st2 in
    let st4 := try_db (lo_delete_ok env) (findOneAndDelete k) st3 in
    (st4, reply_status 200 "success" ("Instance " ++ k ++ " logged out and session removed.")).

Definition get_logout (env : LogoutEnv) (instanceKey : option string) (st : State)
    : State * Response :=
  match instanceKey with
  | Some k => if truthy (Some k) then logoutInstance env k st
              else (st, reply_status 400 "error" "Missing instanceKey in query.")
  | None => (st, reply_status 400 "error" "Missing instanceKey in query.")
  end.

(** ** [/start-session] *)

Record StartEnv := mkStartEnv {
  ss_findOne_ok : bool;
  ss_upsert_ok : bool;
  ss_mkdir_ok : bool
}.

Definition key_required : Response := reply 400 false "instanceKey is required" None None.

Definition already_connected (k : string) : Response :=
  reply 200 true ("Session " ++ k ++ " is already connected") (Some true) None.

Definition currently_initializing (k : string) : Response :=
  reply 200 true ("Session " ++ k ++ " is currently initializing...") (Some false) None.

Definition session_started (k : string) : Response :=
  reply 200 true ("Session started for " ++ k ++ ". Please scan QR code.") (Some false) None.

Definition start_failed : Response := reply 500 false "Failed to start session" None None.

(** [sessionData && sessionData.connected] *)
Definition doc_connected (d : option SessionDoc) : bool :=
  match d with Some d => connected d | None => false end.

(** The handler up to the point where [await initWhatsApp(instanceKey)]
    returns, throws or suspends; [None] means no response yet. *)
Definition start_session (env : StartEnv) (instanceKey : option string) (st : State)
    : State * option Response :=
  match instanceKey with
  | None => (st, Some key_required)
  | Some k =>
      if negb (truthy (Some k)) then (st, Some key_required)
      else if has_sock st k && ss_findOne_ok env && doc_connected (db st !! k) then
        (st, Some (already_connected k))
      else if initializing st k then (st, Some (currently_initializing k))
      else
        let st1 := try_db (ss_upsert_ok env)
                     (findOneAndUpdate k upd_placeholder true) st in
        match initWhatsApp_begin (ss_mkdir_ok env) ByStartSession k st1 with
        | (st2, InitReturned _) => (st2, Some (session_started k))
        | (st2, InitThrew) => (st2, Some start_failed)
        | (st2, InitAwaits) => (st2, None)
        end
  end.

(** ** [/qr] *)

Record QrEnv := mkQrEnv {
  qe_now : Z;              (* [new Date()] at the time of the request *)
  qe_findOne_ok : bool;
  qe_update_ok : bool
}.

(** [(now - new Date(qrData.generatedAt)) / 1000]: the age in seconds, a
    fraction of the millisecond difference (on the range of [Date] the
    double the source computes compares and floors like this fraction). *)
Definition qrAge (now gen : Z) : Q := ((now - gen) # 1000)%Q.

(** [x > y] on numbers. *)
Definition Qgtb (x y : Q) : bool := negb (Qle_bool x y).

(** The literal [60] of the handler, in seconds. *)
Definition qr_window : Z := 60.

Definition qr_already_connected : Response :=
  reply 200 true "Already connected to WhatsApp" (Some true) None.

Definition qr_unavailable : Response :=
  reply 200 false "No QR code available. Please start the session first."
        (Some false) (Some true).

Definition qr_expired : Response :=
  reply 200 false "QR code expired. Please restart the session." (Some false) (Some true).

Definition qr_success (img : string) (expiresIn : Z) : Response :=
  mkResp 200 (Some true) None None (Some false) (Some img) (Some expiresIn) None None.

(** [session?.qr && session?.qrGeneratedAt], read as a cache entry. *)
Definition qr_from_doc (session : option SessionDoc) : option QrData :=
  match session with
  | Some d =>
      match qr d, qrGeneratedAt d with
      | Some img, Some t => if truthy (Some img) then Some (mkQr img t) else None
      | _, _ => None
      end
  | None => None
  end.

(** [let qrData = qrCodes[instanceKey]], then the fall back to the document
    when that found nothing: the entry the handler goes on with.  An
    inherited member is truthy, so there is no fall back, but it is no
    entry. *)
Definition resolve_qr (st : State) (k : string) (session : option SessionDoc) : option QrData :=
  match js_get (qrCodes st) k with
  | Stored q => Some q
  | FromPrototype => None
  | Missing => qr_from_doc session
  end.

(** The answer when [qrData] is an inherited member: it has no
    [generatedAt], the age is [NaN], [NaN > 60] is false, and the success
    answer goes out with [qr] undefined, which the body leaves out, and
    [expiresIn] [NaN], which the body writes as [null]. *)
Definition qr_without_code : Response :=
  mkResp 200 (Some true) None None (Some false) None None None None.

Definition get_qr (env : QrEnv) (instanceKey : option string) (st : State)
    : State * Response :=
  match instanceKey with
  | None => (st, key_required)
  | Some k =>
      if negb (truthy (Some k)) then (st, key_required)
      else
        (* one [try] holds both reads: a throwing [findOne] leaves both undefined *)
        let session := if qe_findOne_ok env then db st !! k else None in
        let sock := qe_findOne_ok env && has_sock st k in
        if doc_connected session && sock then (st, qr_already_connected)
        else
          match resolve_qr st k session with
          | None =>
              match js_get (qrCodes st) k with
              | FromPrototype => (st, qr_without_code)
              | _ => (st, qr_unavailable)
              end
          | Some qrData =>
              let age := qrAge (qe_now env) (generatedAt qrData) in
              if Qgtb age (inject_Z qr_window) then
                let st1 := set_qrCodes (delete k) st in
                (try_db (qe_update_ok env) (findOneAndUpdate k upd_clear_qr false) st1,
                 qr_expired)
              else
                (st, qr_success (qd_qr qrData) (Z.max 0 (qr_window - Qfloor age)))
          end
  end.

(** ** Sending *)

Definition jid_suffix : string := "@s.whatsapp.net".

(** [s.includes(sub)]: [sub] occurs somewhere in [s]. *)
Fixpoint includes (sub s : string) : bool :=
  String.prefix sub s ||
  match s with
  | String _ s' => includes sub s'
  | EmptyString => false
  end.

(** [number.includes('@s.whatsapp.net') ? number : `${number}@s.whatsapp.net`] *)
Definition to_jid (number : string) : string :=
  if includes jid_suffix number then number else number ++ jid_suffix.

Definition not_connected : Response :=
  reply 400 false "Session not connected. Please scan QR code first." None None.

(** [sock.sendMessage(jid, content)] inside [try]/[catch (sendError)]: the
    call is made, and its outcome picks the response. *)
Definition send_via (sock : Sock) (number : string) (c : Content) (send_ok : bool)
    (ok_message fail_message : string) (st : State) : State * Response :=
  let st1 := record_call (SockSendMessage sock (to_jid number) c) st in
  if send_ok then (st1, reply 200 true ok_message None None)
  else (st1, reply 500 false fail_message None None).

(** [sock.sendMessage(...)] where [sock] is an inherited member: it has no
    [sendMessage], so the call throws a [TypeError] before anything is sent,
    and [catch (sendError)] answers. *)
Definition send_throws (fail_message : string) (st : State) : State * Response :=
  (st, reply 500 false fail_message None None).

Definition send_message (send_ok : bool) (instanceKey number message : option string)
    (st : State) : State * Response :=
  match instanceKey, number, message with
  | Some k, Some n, Some m =>
      if truthy (Some k) && truthy (Some n) && truthy (Some m) then
        match js_get (sessions st) k with
        | Missing => (st, not_connected)
        | Stored sock =>
            send_via sock n (Text m) send_ok "Message sent successfully"
                     "Failed to send message to WhatsApp" st
        | FromPrototype => send_throws "Failed to send message to WhatsApp" st
        end
      else (st, reply 400 false "instanceKey, number, and message are required" None None)
  | _, _, _ => (st, reply 400 false "instanceKey, number, and message are required" None None)
  end.

Record UrlEnv := mkUrlEnv {
  ue_download : option (string * option string);  (* [axios.get]: data and content-type *)
  ue_mime_extension : string → option string;      (* [mime.extension] *)
  ue_send_ok : bool
}.

(** [a || b] on strings. *)
Definition or_else (a : option string) (b : string) : string :=
  match a with
  | Some s => if truthy (Some s) then s else b
  | None => b
  end.

Definition send_file_url (env : UrlEnv) (instanceKey number fileUrl caption fileName : option string)
    (st : State) : State * Response :=
  match instanceKey, number, fileUrl with
  | Some k, Some n, Some url =>
      if truthy (Some k) && truthy (Some n) && truthy (Some url) then
        match js_get (sessions st) k with
        | Missing => (st, not_connected)
        | Stored sock =>
            match ue_download env with
            | None => (st, reply 500 false "Failed to download file from URL" None None)
            | Some (data, content_type) =>
                let mimeType := or_else content_type "application/octet-stream" in
                let fileExt := or_else (ue_mime_extension env mimeType) "pdf" in
                let name := or_else fileName ("file." ++ fileExt) in
                send_via sock n (Document data mimeType name (or_else caption ""))
                         (ue_send_ok env) "File sent successfully from URL"
                         "Failed to send file to WhatsApp" st
            end
        | FromPrototype =>
            match ue_download env with
            | None => (st, reply 500 false "Failed to download file from URL" None None)
            | Some _ => send_throws "Failed to send file to WhatsApp" st
            end
        end
      else (st, reply 400 false "instanceKey, number, and fileUrl are required" None None)
  | _, _, _ => (st, reply 400 false "instanceKey, number, and fileUrl are required" None None)
  end.

(** [req.file] as multer's disk storage leaves it. *)
Record Upload := mkUpload {
  up_path : string;
  up_mimetype : option string;
  up_originalname : option string
}.

Record FileEnv := mkFileEnv {
  fe_read : option string;   (* [fs.readFileSync(filePath)]; [None] when it throws *)
  fe_unlink_ok : bool;
  fe_send_ok : bool
}.

(** [if (fs.existsSync(p)) fs.unlinkSync(p)] inside [try]/[catch]. *)
Definition unlink_if_exists (ok : bool) (p : string) (st : State) : State :=
  if truthy (Some p) && bool_decide (p ∈ uploads st) then
    if ok then set_uploads (λ s, s ∖ {[p]}) st else st
  else st.

(** [upload.single('file')] has stored the file before the handler runs; the
    [finally] block removes it once more on every path that set [filePath]. *)
Definition send_file (env : FileEnv) (instanceKey number caption : option string)
    (file : option Upload) (st : State) : State * Response :=
  let st0 := match file with
             | Some f => set_uploads (λ s, {[up_path f]} ∪ s) st
             | None => st
             end in
  let required := reply 400 false "instanceKey, number, and file are required" None None in
  match file with
  | None => (st0, required)
  | Some f =>
      if truthy instanceKey && truthy number then
        let k := default "" instanceKey in
        let n := default "" number in
        let cleanup := unlink_if_exists (fe_unlink_ok env) (up_path f) in
        match js_get (sessions st0) k with
        | Missing => (cleanup (cleanup st0), not_connected)
        | Stored sock =>
            match fe_read env with
            | None => (cleanup (cleanup st0), reply 500 false "Failed to read uploaded file" None None)
            | Some data =>
                let mimeType := or_else (up_mimetype f) "application/octet-stream" in
                let name := or_else (up_originalname f) "file" in
                let (st1, r) :=
                  send_via sock n (Document data mimeType name (or_else caption ""))
                           (fe_send_ok env) "File sent successfully from upload"
                           "Failed to send file to WhatsApp" st0 in
                (cleanup st1, r)
            end
        | FromPrototype =>
            match fe_read env with
            | None => (cleanup (cleanup st0), reply 500 false "Failed to read uploaded file" None None)
            | Some _ =>
                let (st1, r) := send_throws "Failed to send file to WhatsApp" st0 in
                (cleanup st1, r)
            end
        end
      else
        (if truthy (Some (up_path f))
         then (if fe_unlink_ok env then set_uploads (λ s, s ∖ {[up_path f]}) st0 else st0)
         else st0,
         required)
  end.

(** ** Deferred work: the reconnect timer, the suspended [initWhatsApp],
    [loadSessions] *)

(** The callback of [setTimeout(() => { initWhatsApp(instanceKey) }, 5000)]:
    the oldest timer fires; the promise is not awaited. *)
Definition fire_timer (mkdir_ok : bool) (st : State) : State :=
  match timers st with
  | [] => st
  | (k, _) :: rest => fst (initWhatsApp_begin mkdir_ok ByTimer k (set_timers (λ _, rest) st))
  end.

(** The oldest suspended [initWhatsApp] call for [k], and the others. *)
Fixpoint take_awaiting (k : string) (l : list (string * Caller))
    : option (Caller * list (string * Caller)) :=
  match l with
  | [] => None
  | (k', who) :: l' =>
      if String.eqb k k' then Some (who, l')
      else match take_awaiting k l' with
           | Some (w, r) => Some (w, (k', who) :: r)
           | None => None
           end
  end.

Record ResumeEnv := mkResumeEnv {
  re_auth_ok : bool;               (* [useMultiFileAuthState] resolves *)
  re_makeWASocket : option Sock;   (* [None] when it throws *)
  re_db_ok : bool                  (* the update in [loadSessions]' [catch] *)
}.

(** A suspended [initWhatsApp(k)] goes on, and then its caller: the
    [/start-session] handler answers, [loadSessions] resets the document of a
    key whose initialization threw, the timer callback ignores the outcome. *)
Definition resume (env : ResumeEnv) (k : string) (st : State) : State * option Response :=
  match take_awaiting k (awaiting st) with
  | None => (st, None)
  | Some (who, rest) =>
      let (st1, r) := initWhatsApp_resume (re_auth_ok env) (re_makeWASocket env) k
                        (set_awaiting (λ _, rest) st) in
      match who, r with
      | ByStartSession, Some _ => (st1, Some (session_started k))
      | ByStartSession, None => (st1, Some start_failed)
      | ByLoadSessions, None =>
          (try_db (re_db_ok env) (findOneAndUpdate k upd_placeholder false) st1, None)
      | _, _ => (st1, None)
      end
  end.

(** One iteration of the loop of [loadSessions], up to the first [await]
    inside [initWhatsApp]; [k] is taken from the list [Session.find()]
    returned at start-up. *)
Definition load_session (mkdir_ok db_ok : bool) (k : string) (st : State) : State :=
  match initWhatsApp_begin mkdir_ok ByLoadSessions k st with
  | (st1, InitThrew) => try_db db_ok (findOneAndUpdate k upd_placeholder false) st1
  | (st1, _) => st1
  end.

(** ** Routing *)

(** A request that reached the routes, with the outcomes of the outside calls
    its handler makes. *)
Inductive Request :=
| GetStartSession (instanceKey : option string) (env : StartEnv)
| GetQr (instanceKey : option string) (env : QrEnv)
| PostSendMessage (instanceKey number message : option string) (send_ok : bool)
| PostSendFileUrl (instanceKey number fileUrl caption fileName : option string) (env : UrlEnv)
| PostSendFile (instanceKey number caption : option string) (file : option Upload) (env : FileEnv)
| GetLogout (instanceKey : option string) (env : LogoutEnv)
| GetHealth
| Unrouted.

Definition health (st : State) : Response :=
  mkResp 200 None (Some "healthy") None None None None None (Some (size (sessions st))).

Definition not_found : Response := reply 404 false "Endpoint not found" None None.

(** The route handlers, in the order [app.get]/[app.post] register them; the
    catch-all [app.use('*', ...)] comes last. *)
Definition route (req : Request) (st : State) : State * option Response :=
  match req with
  | GetStartSession q env => start_session env q st
  | GetQr q env => let (st', r) := get_qr env q st in (st', Some r)
  | PostSendMessage q n m ok => let (st', r) := send_message ok q n m st in (st', Some r)
  | PostSendFileUrl q n u c f env =>
      let (st', r) := send_file_url env q n u c f st in (st', Some r)
  | PostSendFile q n c f env => let (st', r) := send_file env q n c f st in (st', Some r)
  | GetLogout q env => let (st', r) := get_logout env q st in (st', Some r)
  | GetHealth => (st, Some (health st))
  | Unrouted => (st, Some not_found)
  end.

(** ** Runs of the process *)

Inductive Op :=
| OpRequest (req : Request)
| OpEvent (k : string) (u : ConnectionUpdate) (env : EventEnv)
| OpTimer (mkdir_ok : bool)
| OpResume (k : string) (env : ResumeEnv)
| OpLoad (k : string) (mkdir_ok db_ok : bool).

Definition exec (o : Op) (st : State) : State :=
  match o with
  | OpRequest req => fst (route req st)
  | OpEvent k u env => on_connection_update env k u st
  | OpTimer mkdir_ok => fire_timer mkdir_ok st
  | OpResume k env => fst (resume env k st)
  | OpLoad k mkdir_ok db_ok => load_session mkdir_ok db_ok k st
  end.

Definition run (ops : list Op) (st : State) : State :=
  fold_left (λ s o, exec o s) ops st.

(** The states the process can be in: some run from a fresh start. *)
Definition reachable (st : State) : Prop :=
  ∃ d fs ops, st = run ops (boot d fs).

(** ** [middleware/basicAuth.js] *)

(** [s.split(sep)] for a one-character separator. *)
Fixpoint split (sep : ascii) (s : string) : list string :=
  match s with
  | EmptyString => [""]
  | String c s' =>
      if Ascii.eqb c sep then "" :: split sep s'
      else match split sep s' with
           | h :: t => String c h :: t
           | [] => [String c ""]
           end
  end.

(** The value of a base64 digit as Node's decoder reads it: both the standard
    and the URL-safe alphabet. *)
Definition unbase64 (c : ascii) : option N :=
  let n := N_of_ascii c in
  if (65 <=? n)%N && (n <=? 90)%N then Some (n - 65)%N
  else if (97 <=? n)%N && (n <=? 122)%N then Some (n - 71)%N
  else if (48 <=? n)%N && (n <=? 57)%N then Some (n + 4)%N
  else if (n =? 43)%N || (n =? 45)%N then Some 62%N
  else if (n =? 47)%N || (n =? 95)%N then Some 63%N
  else None.

(** The digits of the input: a character outside the alphabet is skipped, the
    first ['='] ends the input. *)
Fixpoint sextets (s : string) : list N :=
  match s with
  | EmptyString => []
  | String c s' =>
      if Ascii.eqb c "=" then []
      else match unbase64 c with
           | Some v => v :: sextets s'
           | None => sextets s'
           end
  end.

(** Four digits make three bytes; a last group of three or two digits makes
    two bytes or one. *)
Fixpoint octets (l : list N) : list N :=
  match l with
  | a :: b :: c :: d :: r =>
      (a * 4 + b / 16)%N :: ((b mod 16) * 16 + c / 4)%N :: ((c mod 4) * 64 + d)%N :: octets r
  | [a; b; c] => [(a * 4 + b / 16)%N; ((b mod 16) * 16 + c / 4)%N]
  | [a; b] => [(a * 4 + b / 16)%N]
  | _ => []
  end.

(** [Buffer.from(s, 'base64').toString('ascii')]: the ['ascii'] decoding
    drops the high bit of every byte. *)
Definition from_base64_ascii (s : string) : string :=
  string_of_list_ascii (map (λ b, ascii_of_N (N.land b 127)) (octets (sextets s))).

(** [process.env.BASIC_USER] and [process.env.BASIC_PASS]. *)
Record Config := mkConfig {
  BASIC_USER : option string;
  BASIC_PASS : option string
}.

Definition USERNAME (cfg : Config) : string := or_else (BASIC_USER cfg) "".
Definition PASSWORD (cfg : Config) : string := or_else (BASIC_PASS cfg) "".

(** [authHeader.split(' ')[1]], decoded and split at [':']: the first two
    pieces, the second missing when there is no [':']. *)
Definition parse_credentials (authHeader : string) : string * option string :=
  let base64Credentials := default "" (split " " authHeader !! 1%nat) in
  let credentials := from_base64_ascii base64Credentials in
  let parts := split ":" credentials in
  (default "" (parts !! 0%nat), parts !! 1%nat).

Inductive AuthResult :=
| Next
| Reject (r : Response).

Definition unauthorized (code : Z) : Response :=
  reply code false "Unauthorized access!" None None.

Definition basicAuth (cfg : Config) (authorization : option string) : AuthResult :=
  match authorization with
  | None => Reject (unauthorized 401)
  | Some authHeader =>
      if negb (truthy (Some authHeader)) || negb (String.prefix "Basic " authHeader) then
        Reject (unauthorized 401)
      else
        let (username, password) := parse_credentials authHeader in
        if String.eqb username (USERNAME cfg) &&
           match password with
           | Some p => String.eqb p (PASSWORD cfg)
           | None => false
           end
        then Next
        else Reject (unauthorized 403)
  end.

(** ** The middleware chain *)

(** The errors a middleware hands to [next(err)], as far as the error
    handler tells them apart. *)
Inductive ServerError :=
| LimitFileSize     (* a [multer.MulterError] with code [LIMIT_FILE_SIZE] *)
| OtherError.

(** The global error handler, [app.use((error, req, res, next) => ...)]. *)
Definition error_handler (e : ServerError) : Response :=
  match e with
  | LimitFileSize => reply 400 false "File too large. Maximum size is 50MB." None None
  | OtherError => reply 500 false "Internal server error" None None
  end.

(** A request as it arrives, before any middleware has seen it. *)
Record Incoming := mkIncoming {
  in_options : bool;                  (* the method is [OPTIONS] *)
  in_body_ok : bool;                  (* [express.json()] can read the body *)
  in_authorization : option string;   (* [req.headers['authorization']] *)
  in_request : Request                (* what the routes would see *)
}.

(** [cors()] with its defaults answers an [OPTIONS] request itself: status
    204 and no body. *)
Definition preflight_answer : Response :=
  mkResp 204 None None None None None None None None.

(** The middlewares in the order [app.use] registers them: [cors()],
    [express.json()], [basicAuth], then the routes.  A body that
    [express.json()] cannot read goes to the error handler as an error that
    is no [MulterError].  A request gets to [route] only through the
    [next()] of [basicAuth]. *)
Definition app (cfg : Config) (req : Incoming) (st : State) : State * option Response :=
  if in_options req then (st, Some preflight_answer)
  else if negb (in_body_ok req) then (st, Some (error_handler OtherError))
  else
    match basicAuth cfg (in_authorization req) with
    | Next => route (in_request req) st
    | Reject r => (st, Some r)
    end.

(** The RFC 4648 encoding of a short text, to write headers down. *)
Definition base64_digit (n : N) : ascii :=
  if (n <? 26)%N then ascii_of_N (n + 65)
  else if (n <? 52)%N then ascii_of_N (n + 71)
  else if (n <? 62)%N then ascii_of_N (n - 4)
  else if (n =? 62)%N then "+"%char else "/"%char.

Fixpoint to_base64_bytes (l : list N) : string :=
  match l with
  | a :: b :: c :: r =>
      String (base64_digit (a / 4)) (String (base64_digit ((a mod 4) * 16 + b / 16))
        (String (base64_digit ((b mod 16) * 4 + c / 64)) (String (base64_digit (c mod 64))
          (to_base64_bytes r))))
  | [a; b] =>
      String (base64_digit (a / 4)) (String (base64_digit ((a mod 4) * 16 + b / 16))
        (String (base64_digit ((b mod 16) * 4)) "="))
  | [a] =>
      String (base64_digit (a / 4)) (String (base64_digit ((a mod 4) * 16)) "==")
  | [] => ""
  end.

Definition to_base64 (s : string) : string :=
  to_base64_bytes (map N_of_ascii (list_ascii_of_string s)).

(** ** Notions of the specification *)

(** [s] ends with [suf]. *)
Fixpoint ends_with (suf s : string) : bool :=
  String.eqb suf s ||
  match s with
  | String _ s' => ends_with suf s'
  | EmptyString => false
  end.

(** A recipient is in the protocol's addressing form when it carries the
    domain suffix: [<user>@s.whatsapp.net]. *)
Definition in_addressing_form (number : string) : bool := ends_with jid_suffix number.

(** Normalization as the specification words it: unchanged when already in
    the addressing form, the suffix appended otherwise. *)
Definition normalize_by_form (number : string) : string :=
  if in_addressing_form number then number else number ++ jid_suffix.

(** ** Scenarios *)

(** Environments in which no outside call throws. *)
Definition start_ok : StartEnv := mkStartEnv true true true.
Definition resume_ok (sock : Sock) : ResumeEnv := mkResumeEnv true (Some sock) true.
Definition logout_ok : LogoutEnv := mkLogoutEnv true true.
Definition event_ok (qrImage : string) (t : Z) : EventEnv :=
  mkEventEnv (Some qrImage) t t true true true true true.

Definition qr_event (raw : string) : ConnectionUpdate := mkConnUpdate None None (Some raw).
Definition open_event : ConnectionUpdate := mkConnUpdate (Some ConnOpen) None None.
Definition close_event (code : Z) : ConnectionUpdate :=
  mkConnUpdate (Some ConnClose) (Some code) None.

Definition QR1 : string := "data:image/png;base64,QR1".

(** ["alice"] is started and her socket is created; nothing has been paired
    yet. *)
Definition alice_started : list Op :=
  [ OpRequest (GetStartSession (Some "alice") start_ok);
    OpResume "alice" (resume_ok 1%nat) ].

(** Then a pairing code is issued at time 1000. *)
Definition alice_pairing : list Op :=
  (alice_started ++ [ OpEvent "alice" (qr_event "2@raw") (event_ok QR1 1000) ])%list.

(** ["alice"] connects, the connection drops for a reason other than a
    logout (428, connection closed), and she logs out before the reconnect
    timer fires. *)
Definition alice_logged_out_during_backoff : list Op :=
  (alice_pairing ++
   [ OpEvent "alice" open_event (event_ok QR1 2000);
     OpEvent "alice" (close_event 428) (event_ok QR1 3000);
     OpRequest (GetLogout (Some "alice") logout_ok) ])%list.

(** The connection of ["alice"] drops, and she asks to start again while the
    reconnect timer is pending: her request is suspended inside
    [initWhatsApp], guard set. *)
Definition alice_restart_during_backoff : list Op :=
  (alice_started ++
   [ OpEvent "alice" (close_event 428) (event_ok QR1 3000);
     OpRequest (GetStartSession (Some "alice") start_ok) ])%list.

(** Logout wins, as the specification words it: when the record of [k] is
    gone and the reconnect callback of [k] fires, [k] gets neither a live
    handle nor a record back. *)
Definition reconnect_fenced (st : State) (k : string) : Prop :=
  db st !! k = None → sessions st !! k = None →
  ∀ mkdir_ok env,
    sessions (run [OpTimer mkdir_ok; OpResume k env] st) !! k = None
    ∧ db (run [OpTimer mkdir_ok; OpResume k env] st) !! k = None.

(** The invariant of a stored document: not both connected and holding a
    non-empty pairing code, and an issue time exactly when there is a code. *)
Definition doc_ok (d : SessionDoc) : Prop :=
  ¬ (connected d = true ∧ truthy (qr d) = true)
  ∧ (is_Some (qrGeneratedAt d) ↔ is_Some (qr d)).

Definition store_ok (m : gmap string SessionDoc) : Prop :=
  map_Forall (λ _ d, doc_ok d) m.

(** The update documents that occur in the source. *)
Definition source_update (u : Update) : Prop :=
  u = upd_placeholder ∨ (∃ img t, u = upd_qr img t) ∨ u = upd_open ∨ u = upd_clear_qr.

(** One write to the store, as the source makes them. *)
Inductive store_write : gmap string SessionDoc → gmap string SessionDoc → Prop :=
| write_update k u upsert m :
    source_update u → store_write m (findOneAndUpdate k u upsert m)
| write_delete k m :
    store_write m (findOneAndDelete k m).

(** While a guard is set for a key, the key is non-empty and has no live
    handle. *)
Definition guard_inv (st : State) : Prop :=
  ∀ k, guard_set st k = true → sessions st !! k = None ∧ truthy (Some k) = true.

(** A step that leaves the guards alone and adds no live handle. *)
Definition shrinks (st st' : State) : Prop :=
  initializingSessions st' = initializingSessions st
  ∧ ∀ k, sessions st !! k = None → sessions st' !! k = None.

(** ** [loadSessions], run to completion *)

(** The outcomes of the outside calls of one iteration of the loop. *)
Record LoadEnv := mkLoadEnv {
  ld_mkdir_ok : bool;
  ld_resume : ResumeEnv
}.

(** One iteration with nothing else in between: [await initWhatsApp(k)]
    runs to its end, and the [catch (sessionError)] resets the document of a
    key whose initialization threw. *)
Definition load_one (env : LoadEnv) (k : string) (st : State) : State :=
  match initWhatsApp_begin (ld_mkdir_ok env) ByLoadSessions k st with
  | (st1, InitAwaits) => (resume (ld_resume env) k st1).1
  | (st1, InitThrew) =>
      try_db (re_db_ok (ld_resume env)) (findOneAndUpdate k upd_placeholder false) st1
  | (st1, InitReturned _) => st1
  end.

(** [loadSessions()]: [found] is what [Session.find()] resolved to, the keys
    of the documents in the order the store lists them, each with the
    outcomes of its iteration; [None] when [Session.find()] throws. *)
Definition loadSessions (found : option (list (string * LoadEnv))) (st : State) : State :=
  match found with
  | None => st
  | Some instances => fold_left (λ s i, load_one i.2 i.1 s) instances st
  end.

(** The handle an iteration ends with: the socket [makeWASocket] returns,
    when the key is non-empty and names no inherited member, the folder is
    there or can be made, and the auth state loads. *)
Definition load_outcome (env : LoadEnv) (k : string) (st : State) : option Sock :=
  if truthy (Some k)
     && negb (inherited k)
     && (bool_decide (k ∈ folders st) || ld_mkdir_ok env)
     && re_auth_ok (ld_resume env)
  then re_makeWASocket (ld_resume env)
  else None.

(** ** The key an operation works on *)

Definition request_key (req : Request) : option string :=
  match req with
  | GetStartSession q _ => q
  | GetQr q _ => q
  | PostSendMessage q _ _ _ => q
  | PostSendFileUrl q _ _ _ _ _ => q
  | PostSendFile q _ _ _ _ => q
  | GetLogout q _ => q
  | GetHealth => None
  | Unrouted => None
  end.

Definition op_key (o : Op) (st : State) : option string :=
  match o with
  | OpRequest req => request_key req
  | OpEvent k _ _ => Some k
  | OpTimer _ => fst <$> head (timers st)
  | OpResume k _ => Some k
  | OpLoad k _ _ => Some k
  end.

(** What the registries and the store hold for one key. *)
Definition registry_view (k : string) (st : State)
    : option Sock * option QrData * option bool * option SessionDoc :=
  (sessions st !! k, qrCodes st !! k, initializingSessions st !! k, db st !! k).

(** The same, with the folder that carries the name of the key. *)
Definition key_view (k : string) (st : State)
    : option Sock * option QrData * option bool * option SessionDoc * bool :=
  (sessions st !! k, qrCodes st !! k, initializingSessions st !! k, db st !! k,
   bool_decide (k ∈ folders st)).

(** [st'] holds for every key but [k] what [st] holds. *)
Definition same_elsewhere (k : option string) (st st' : State) : Prop :=
  ∀ k', k ≠ Some k' → key_view k' st' = key_view k' st.

(** The lifecycle state: everything but the log of protocol calls and the
    upload files. *)
Definition lifecycle (st : State) :=
  (sessions st, qrCodes st, initializingSessions st, db st, folders st, timers st,
   awaiting st).

(** No [':'] in a string. *)
Definition no_colon (s : string) : bool := negb (includes ":" s).

(** A string of 7-bit characters. *)
Fixpoint is_ascii (s : string) : bool :=
  match s with
  | EmptyString => true
  | String c s' => (N_of_ascii c <? 128)%N && is_ascii s'
  end.

(** The validation answers of the send routes. *)
Definition message_required : Response :=
  reply 400 false "instanceKey, number, and message are required" None None.
Definition fileUrl_required : Response :=
  reply 400 false "instanceKey, number, and fileUrl are required" None None.
Definition file_required : Response :=
  reply 400 false "instanceKey, number, and file are required" None None.


(** The key for which an operation schedules a reconnect: the one of a
    close event whose reason is not the remote logout. *)
Definition schedules_reconnect (o : Op) : option string :=
  match o with
  | OpEvent k u _ =>
      match connection u with
      | Some ConnClose => if shouldReconnect u then Some k else None
      | _ => None
      end
  | _ => None
  end.

(** The operations that may call the protocol client: the three sends and
    the logout. *)
Definition talks_to_client (o : Op) : bool :=
  match o with
  | OpRequest (PostSendMessage _ _ _ _) => true
  | OpRequest (PostSendFileUrl _ _ _ _ _ _) => true
  | OpRequest (PostSendFile _ _ _ _ _) => true
  | OpRequest (GetLogout _ _) => true
  | _ => false
  end.

(** The character [c] occurs in [s]. *)
Fixpoint has_char (c : ascii) (s : string) : bool :=
  match s with
  | EmptyString => false
  | String c' s' => Ascii.eqb c' c || has_char c s'
  end.

(** The header a client sends for a user name and a password:
    ["Basic " + base64(user + ":" + password)]. *)
Definition basic_header (user password : string) : string :=
  "Basic " ++ to_base64 (user ++ ":" ++ password).

(** The part of a string before its first [':']. *)
Definition first_piece (s : string) : string := default "" (split ":" s !! 0%nat).

(** A set guard belongs to a creation sequence that is suspended. *)
Definition guard_has_sequence (st : State) : Prop :=
  ∀ k, guard_set st k = true → k ∈ (awaiting st).*1.

(** A step that touches neither the guards nor the suspended sequences. *)
Definition keeps_sequences (st st' : State) : Prop :=
  initializingSessions st' = initializingSessions st ∧ awaiting st' = awaiting st.

(** Under a key that names an inherited member the program stores no
    handle, sets no guard and suspends no creation sequence. *)
Definition own_names (st : State) : Prop :=
  ∀ k, inherited k = true →
    sessions st !! k = None ∧ guard_set st k = false ∧ k ∉ (awaiting st).*1.

(** * Properties *)

(** ** Lookups in a plain object *)

Lemma js_get_stored {V} (o : gmap string V) (k : string) (v : V) :
  o !! k = Some v → js_get o k = Stored v.
Proof. unfold js_get. by intros ->. Qed.

Lemma js_get_missing {V} (o : gmap string V) (k : string) :
  o !! k = None → inherited k = false → js_get o k = Missing.
Proof. unfold js_get. by intros -> ->. Qed.

Lemma js_get_inherited {V} (o : gmap string V) (k : string) :
  o !! k = None → inherited k = true → js_get o k = FromPrototype.
Proof. unfold js_get. by intros -> ->. Qed.

Lemma js_get_is_missing {V} (o : gmap string V) (k : string) :
  js_get o k = Missing ↔ o !! k = None ∧ inherited k = false.
Proof.
  unfold js_get. destruct (o !! k); [| destruct (inherited k)]; split; try done;
    by intros [? ?].
Qed.

Lemma has_sock_false (st : State) (k : string) :
  has_sock st k = false ↔ sessions st !! k = None ∧ inherited k = false.
Proof.
  unfold has_sock. rewrite <- js_get_is_missing. by destruct (js_get (sessions st) k).
Qed.

Lemma has_sock_stored (st : State) (k : string) (sock : Sock) :
  sessions st !! k = Some sock → has_sock st k = true.
Proof. intros H. unfold has_sock. by rewrite (js_get_stored _ _ _ H). Qed.

Lemma initializing_guard (st : State) (k : string) :
  inherited k = false → initializing st k = guard_set st k.
Proof.
  intros Hk. unfold initializing, guard_set, js_get.
  destruct (initializingSessions st !! k); [done |]. by rewrite Hk.
Qed.

Lemma guard_initializing (st : State) (k : string) :
  guard_set st k = true → initializing st k = true.
Proof.
  unfold initializing, guard_set, js_get.
  by destruct (initializingSessions st !! k).
Qed.

Lemma logout_socket_none (st : State) (k : string) :
  sessions st !! k = None → logout_socket k st = st.
Proof. unfold logout_socket, js_get. intros ->. by destruct (inherited k). Qed.

Lemma logout_socket_stored (st : State) (k : string) (sock : Sock) :
  sessions st !! k = Some sock → logout_socket k st = record_call (SockLogout sock) st.
Proof. unfold logout_socket, js_get. by intros ->. Qed.

(** The test of [initWhatsApp]: [sessions[k] || initializingSessions[k]]. *)
Lemma has_sock_or_initializing (st : State) (k : string) :
  has_sock st k || initializing st k = has_sock st k || guard_set st k.
Proof.
  destruct (has_sock st k) eqn:E; [done |].
  apply has_sock_false in E as [_ E]. cbn [orb]. by apply initializing_guard.
Qed.

(** ** Strings *)

Lemma prefix_app (a b : string) : String.prefix a (a ++ b) = true.
Proof.
  induction a as [|c a IH]; simpl.
  - by destruct b.
  - destruct (ascii_dec c c); [exact IH | congruence].
Qed.

Lemma prefix_split (a s : string) :
  String.prefix a s = true → ∃ b, s = a ++ b.
Proof.
  revert s. induction a as [|c a IH]; intros s H.
  - by exists s.
  - destruct s as [|c' s]; [done |]. simpl in H. revert H.
    destruct (ascii_dec c c') as [-> | ]; [intros H | done].
    destruct (IH _ H) as [b ->]. by exists b.
Qed.

(** [includes] is substring search. *)
Lemma includes_spec (sub s : string) :
  includes sub s = true ↔ ∃ a b, s = a ++ sub ++ b.
Proof.
  split.
  - induction s as [|c s IH]; cbn [includes]; intros H.
    + rewrite orb_false_r in H. destruct (prefix_split _ _ H) as [b Hb].
      by exists "", b.
    + apply orb_true_iff in H as [H | H].
      * destruct (prefix_split _ _ H) as [b Hb]. by exists "", b.
      * destruct (IH H) as (a & b & ->). by exists (String c a), b.
  - intros (a & b & ->). induction a as [|c a IH].
    + change ("" ++ sub ++ b) with (sub ++ b).
      destruct (sub ++ b) eqn:E; cbn [includes]; rewrite <- E, prefix_app; done.
    + change (String c a ++ sub ++ b) with (String c (a ++ sub ++ b)).
      cbn [includes]. rewrite IH. apply orb_true_r.
Qed.

Lemma ends_with_spec (suf s : string) :
  ends_with suf s = true ↔ ∃ a, s = a ++ suf.
Proof.
  split.
  - induction s as [|c s IH]; cbn [ends_with]; intros H.
    + rewrite orb_false_r in H. apply String.eqb_eq in H as ->. by exists "".
    + apply orb_true_iff in H as [H | H].
      * apply String.eqb_eq in H as ->. by exists "".
      * destruct (IH H) as [a ->]. by exists (String c a).
  - intros [a ->]. induction a as [|c a IH].
    + change ("" ++ suf) with suf.
      destruct suf; cbn [ends_with]; by rewrite String.eqb_refl.
    + change (String c a ++ suf) with (String c (a ++ suf)).
      cbn [ends_with]. rewrite IH. apply orb_true_r.
Qed.

Lemma app_empty_r (s : string) : s ++ "" = s.
Proof.
  induction s as [|c s IH]; [done |].
  change (String c s ++ "") with (String c (s ++ "")). by rewrite IH.
Qed.

Lemma ends_with_includes (suf s : string) :
  ends_with suf s = true → includes suf s = true.
Proof.
  intros [a ->]%ends_with_spec. apply includes_spec.
  exists a, "". by rewrite app_empty_r.
Qed.

(** ** Sending: what reaches the protocol client *)

Lemma send_via_calls sock n c ok a b st :
  calls (send_via sock n c ok a b st).1
  = enqueue (SockSendMessage sock (to_jid n) c) (calls st).
Proof. unfold send_via. by destruct ok. Qed.

Lemma unlink_if_exists_calls ok p st : calls (unlink_if_exists ok p st) = calls st.
Proof. unfold unlink_if_exists. by repeat case_match. Qed.

Lemma send_message_live ok k n m sock st :
  truthy (Some k) = true → truthy (Some n) = true → truthy (Some m) = true →
  sessions st !! k = Some sock →
  send_message ok (Some k) (Some n) (Some m) st
  = send_via sock n (Text m) ok "Message sent successfully"
             "Failed to send message to WhatsApp" st.
Proof.
  intros Hk Hn Hm Hs. unfold send_message.
  by rewrite Hk, Hn, Hm, (js_get_stored _ _ _ Hs).
Qed.

Lemma send_file_url_live env k n url caption fileName data ct sock st :
  truthy (Some k) = true → truthy (Some n) = true → truthy (Some url) = true →
  sessions st !! k = Some sock → ue_download env = Some (data, ct) →
  ∃ c, send_file_url env (Some k) (Some n) (Some url) caption fileName st
       = send_via sock n c (ue_send_ok env) "File sent successfully from URL"
                  "Failed to send file to WhatsApp" st.
Proof.
  intros Hk Hn Hu Hs Hd. unfold send_file_url.
  rewrite Hk, Hn, Hu, (js_get_stored _ _ _ Hs), Hd.
  eexists. reflexivity.
Qed.

Lemma send_file_live env k n caption f data sock st :
  truthy (Some k) = true → truthy (Some n) = true →
  sessions st !! k = Some sock → fe_read env = Some data →
  ∃ c, calls (send_file env (Some k) (Some n) caption (Some f) st).1
       = enqueue (SockSendMessage sock (to_jid n) c) (calls st).
Proof.
  intros Hk Hn Hs Hd. unfold send_file. rewrite Hk, Hn. simpl.
  rewrite (js_get_stored _ _ _ Hs), Hd. eexists.
  match goal with |- context [send_via ?s ?n ?c ?ok ?a ?b ?st] =>
    pose proof (send_via_calls s n c ok a b st) as Hc;
    destruct (send_via s n c ok a b st) as [st1 r] end.
  cbn [fst] in *. rewrite unlink_if_exists_calls. exact Hc.
Qed.

(** C8, as stated, fails: a recipient that only contains the suffix, without
    ending in it, is not in the addressing form, yet it is forwarded as it is
    and no suffix is appended. *)
Lemma suffix_inside_is_forwarded_unchanged :
  in_addressing_form "1555@s.whatsapp.net.example" = false
  ∧ to_jid "1555@s.whatsapp.net.example" = "1555@s.whatsapp.net.example"
  ∧ normalize_by_form "1555@s.whatsapp.net.example"
    = "1555@s.whatsapp.net.example@s.whatsapp.net"
  ∧ ¬ (∀ number, to_jid number = normalize_by_form number).
Proof.
  repeat split; try reflexivity.
  intros H. specialize (H "1555@s.whatsapp.net.example"). vm_compute in H. discriminate H.
Qed.

(** C8, amended: every send operation with a live handle forwards
    [to_jid number]; the recipient is left unchanged when it contains
    ["@s.whatsapp.net"] anywhere, which covers every recipient that ends with
    it, and gets the suffix appended otherwise, so ["1555"] goes out as
    ["1555@s.whatsapp.net"].  Off the substring case this is the
    normalization by addressing form. *)
Theorem recipient_normalization (number : string) :
  (includes jid_suffix number = true → to_jid number = number)
  ∧ (includes jid_suffix number = false →
       to_jid number = number ++ jid_suffix ∧ to_jid number = normalize_by_form number)
  ∧ (in_addressing_form number = true → to_jid number = number)
  ∧ to_jid "1555" = "1555@s.whatsapp.net"
  ∧ (∀ ok k m sock st,
       truthy (Some k) = true → truthy (Some number) = true → truthy (Some m) = true →
       sessions st !! k = Some sock →
       calls (send_message ok (Some k) (Some number) (Some m) st).1
       = enqueue (SockSendMessage sock (to_jid number) (Text m)) (calls st))
  ∧ (∀ env k url caption fileName data ct sock st,
       truthy (Some k) = true → truthy (Some number) = true → truthy (Some url) = true →
       sessions st !! k = Some sock → ue_download env = Some (data, ct) →
       ∃ c, calls (send_file_url env (Some k) (Some number) (Some url) caption fileName st).1
            = enqueue (SockSendMessage sock (to_jid number) c) (calls st))
  ∧ (∀ env k caption f data sock st,
       truthy (Some k) = true → truthy (Some number) = true →
       sessions st !! k = Some sock → fe_read env = Some data →
       ∃ c, calls (send_file env (Some k) (Some number) caption (Some f) st).1
            = enqueue (SockSendMessage sock (to_jid number) c) (calls st)).
Proof.
  split_and!.
  - unfold to_jid. by intros ->.
  - unfold to_jid, normalize_by_form, in_addressing_form. intros H. rewrite H.
    split; [done |]. destruct (ends_with jid_suffix number) eqn:E; [| done].
    apply ends_with_includes in E. congruence.
  - intros H%ends_with_includes. unfold to_jid. by rewrite H.
  - reflexivity.
  - intros. erewrite send_message_live by eassumption. apply send_via_calls.
  - intros env k url caption fileName data ct sock st Hk Hn Hu Hs Hd.
    destruct (send_file_url_live env k number url caption fileName data ct sock st)
      as [c ->]; try done.
    exists c. apply send_via_calls.
  - intros. by eapply send_file_live.
Qed.

(** ** Basic authentication *)

Lemma prefix_truthy (p h : string) :
  truthy (Some p) = true → String.prefix p h = true → truthy (Some h) = true.
Proof. destruct p; [done |]. by destruct h. Qed.

Lemma basicAuth_parsed (cfg : Config) (h : string) :
  String.prefix "Basic " h = true →
  basicAuth cfg (Some h)
  = if bool_decide (parse_credentials h = (USERNAME cfg, Some (PASSWORD cfg)))
    then Next else Reject (unauthorized 403).
Proof.
  intros Hp. unfold basicAuth.
  rewrite Hp, (prefix_truthy "Basic " h eq_refl Hp). cbn [negb orb].
  destruct (parse_credentials h) as [u [p|]].
  - destruct (String.eqb_spec u (USERNAME cfg)) as [-> | Hu];
      destruct (String.eqb_spec p (PASSWORD cfg)) as [-> | Hq]; cbn [andb];
      case_bool_decide; congruence.
  - rewrite andb_false_r. case_bool_decide; congruence.
Qed.

Lemma includes_char c s : includes (String c "") s = has_char c s.
Proof.
  induction s as [|c' s IH]; [done |].
  cbn [includes has_char String.prefix]. rewrite IH. f_equal.
  destruct (ascii_dec c c') as [-> | Hne].
  - rewrite Ascii.eqb_refl. by destruct s.
  - symmetry. apply Ascii.eqb_neq. congruence.
Qed.

Lemma split_nonempty sep s : ∃ h t, split sep s = h :: t.
Proof.
  induction s as [|c s (h & t & IH)]; cbn; [by eexists _, _ |].
  destruct (Ascii.eqb c sep); [by eexists _, _ |]. rewrite IH. by eexists _, _.
Qed.

(** No piece of a split holds the separator, and the pieces of a 7-bit
    string are 7-bit. *)
Lemma split_pieces sep s :
  Forall (λ p, has_char sep p = false ∧ (is_ascii s = true → is_ascii p = true))
         (split sep s).
Proof.
  induction s as [|c s IH]; cbn [split].
  - by repeat constructor.
  - destruct (Ascii.eqb c sep) eqn:E.
    + constructor; [done |]. eapply Forall_impl; [exact IH |].
      cbn. intros p [H1 H2]. split; [done |]. intros [_ H]%andb_true_iff. auto.
    + destruct (split_nonempty sep s) as (h & t & Hs). rewrite Hs in *.
      apply Forall_cons in IH as [[Hh1 Hh2] IH]. constructor.
      * cbn. rewrite E, Hh1. split; [done |].
        intros [Hc H]%andb_true_iff. by rewrite Hc, Hh2.
      * eapply Forall_impl; [exact IH |].
        cbn. intros p [H1 H2]. split; [done |]. intros [_ H]%andb_true_iff. auto.
Qed.

Lemma from_base64_is_ascii s : is_ascii (from_base64_ascii s) = true.
Proof.
  unfold from_base64_ascii. induction (octets (sextets s)) as [|b l IH]; [done |].
  cbn [map string_of_list_ascii is_ascii]. rewrite IH, andb_true_r.
  assert (N.land b 127 < 128)%N as Hlt.
  { change 127%N with (N.ones 7). rewrite N.land_ones. by apply N.mod_lt. }
  rewrite N_ascii_embedding by lia. by apply N.ltb_lt.
Qed.

Ltac div_lia := zify; Z.to_euclidean_division_equations; lia.

Lemma base64_digit_ok n :
  (n < 64)%N →
  unbase64 (base64_digit n) = Some n
  ∧ Ascii.eqb (base64_digit n) "=" = false
  ∧ Ascii.eqb (base64_digit n) " " = false.
Proof.
  intros Hn. rewrite <- (N2Nat.id n).
  assert (N.to_nat n < 64)%nat as Hi by lia. revert Hi. generalize (N.to_nat n).
  intros i Hi. do 64 (destruct i as [|i]; [by vm_compute |]). lia.
Qed.

Lemma sextets_digit n s :
  (n < 64)%N → sextets (String (base64_digit n) s) = n :: sextets s.
Proof.
  intros Hn. destruct (base64_digit_ok n Hn) as (H1 & H2 & _).
  cbn [sextets]. by rewrite H2, H1.
Qed.

(** Decoding what the encoder wrote gives the bytes back. *)
Lemma octets_sextets_bytes l :
  (Forall (λ b, (b < 256)%N) l → octets (sextets (to_base64_bytes l)) = l)
  ∧ (∀ a, Forall (λ b, (b < 256)%N) (a :: l) →
          octets (sextets (to_base64_bytes (a :: l))) = a :: l)
  ∧ (∀ a b, Forall (λ b, (b < 256)%N) (a :: b :: l) →
            octets (sextets (to_base64_bytes (a :: b :: l))) = a :: b :: l).
Proof.
  induction l as [|c l (IH0 & IH1 & IH2)].
  - split_and!.
    + done.
    + intros a [Ha _]%Forall_cons. cbn [to_base64_bytes].
      rewrite !sextets_digit by div_lia. cbn [sextets octets]. cbn.
      f_equal. div_lia.
    + intros a b [Ha [Hb _]%Forall_cons]%Forall_cons. cbn [to_base64_bytes].
      rewrite !sextets_digit by div_lia. cbn [sextets octets]. cbn.
      f_equal; [div_lia |]. f_equal. div_lia.
  - split_and!; [apply IH1 | intros a; apply IH2 |].
    intros a b [Ha [Hb [Hc Hl]%Forall_cons]%Forall_cons]%Forall_cons.
    cbn [to_base64_bytes]. rewrite !sextets_digit by div_lia. cbn [octets].
    rewrite IH0 by done.
    f_equal; [div_lia |]. f_equal; [div_lia |]. f_equal. div_lia.
Qed.

Lemma from_base64_to_base64 s :
  is_ascii s = true → from_base64_ascii (to_base64 s) = s.
Proof.
  intros Hs. unfold from_base64_ascii, to_base64.
  rewrite (proj1 (octets_sextets_bytes _)).
  - induction s as [|c s IH]; [done |].
    cbn in Hs. apply andb_true_iff in Hs as [Hc Hs]. apply N.ltb_lt in Hc.
    cbn [list_ascii_of_string map string_of_list_ascii]. rewrite IH by done.
    f_equal. change 127%N with (N.ones 7). rewrite N.land_ones.
    rewrite N.mod_small by exact Hc. apply ascii_N_embedding.
  - clear Hs. induction s as [|c s IH]; cbn; constructor; [| done].
    apply N_ascii_bounded.
Qed.

Lemma base64_digit_not_space n : Ascii.eqb (base64_digit n) " " = false.
Proof.
  destruct (N.ltb_spec n 64) as [Hn | Hn]; [by apply base64_digit_ok |].
  unfold base64_digit.
  rewrite (proj2 (N.ltb_ge n 26)), (proj2 (N.ltb_ge n 52)), (proj2 (N.ltb_ge n 62)) by lia.
  by destruct (n =? 62)%N.
Qed.

Lemma to_base64_bytes_no_space l :
  has_char " " (to_base64_bytes l) = false
  ∧ (∀ a, has_char " " (to_base64_bytes (a :: l)) = false)
  ∧ (∀ a b, has_char " " (to_base64_bytes (a :: b :: l)) = false).
Proof.
  induction l as [|c l (IH0 & IH1 & IH2)].
  - split_and!; intros; cbn [to_base64_bytes has_char];
      by rewrite ?base64_digit_not_space.
  - split_and!; [apply IH1 | intros a; apply IH2 |].
    intros a b. cbn [to_base64_bytes has_char].
    by rewrite !base64_digit_not_space, IH0.
Qed.

Lemma split_whole sep s : has_char sep s = false → split sep s = [s].
Proof.
  induction s as [|c s IH]; [done |]. cbn [has_char split].
  intros [Hc Hs]%orb_false_iff. by rewrite Hc, IH.
Qed.

Lemma split_app sep u p :
  has_char sep u = false → split sep (u ++ String sep p) = u :: split sep p.
Proof.
  induction u as [|c u IH].
  - intros _. change ("" ++ String sep p) with (String sep p).
    cbn [split]. by rewrite Ascii.eqb_refl.
  - cbn [has_char]. intros [Hc Hu]%orb_false_iff.
    change (String c u ++ String sep p) with (String c (u ++ String sep p)).
    cbn [split]. by rewrite Hc, IH.
Qed.

Lemma is_ascii_app a b : is_ascii (a ++ b) = is_ascii a && is_ascii b.
Proof.
  induction a as [|c a IH]; [done |].
  change (String c a ++ b) with (String c (a ++ b)). cbn [is_ascii].
  by rewrite IH, andb_assoc.
Qed.

(** What [basicAuth] reads out of a well-formed header. *)
Lemma parse_basic_header user password :
  is_ascii user = true → is_ascii password = true → no_colon user = true →
  parse_credentials (basic_header user password) = (user, Some (first_piece password)).
Proof.
  intros Hu Hp Hc. unfold parse_credentials, basic_header.
  change ("Basic " ++ ?b) with ("Basic" ++ String " " b).
  rewrite (split_app " " "Basic") by done.
  rewrite (split_whole " " (to_base64 _))
    by (unfold to_base64; apply to_base64_bytes_no_space).
  cbn [lookup list_lookup default]. change (id ?x) with x.
  rewrite from_base64_to_base64
    by (rewrite !is_ascii_app, Hu, Hp; done).
  change (user ++ ":" ++ password) with (user ++ String ":" password).
  rewrite split_app
    by (unfold no_colon in Hc; rewrite includes_char in Hc; by apply negb_true_iff).
  cbn [lookup list_lookup default]. change (id ?x) with x.
  unfold first_piece.
  destruct (split_nonempty ":" password) as (h & t & ->). done.
Qed.

Lemma USERNAME_default (cfg : Config) : USERNAME cfg = default "" (BASIC_USER cfg).
Proof. unfold USERNAME, or_else. destruct (BASIC_USER cfg) as [[|c u]|]; done. Qed.

Lemma PASSWORD_default (cfg : Config) : PASSWORD cfg = default "" (BASIC_PASS cfg).
Proof. unfold PASSWORD, or_else. destruct (BASIC_PASS cfg) as [[|c u]|]; done. Qed.

Lemma basicAuth_rejects (cfg : Config) (a : option string) (r : Response) :
  basicAuth cfg a = Reject r → r = unauthorized 401 ∨ r = unauthorized 403.
Proof.
  unfold basicAuth. destruct a as [h|]; [| intros [= <-]; by left].
  repeat case_match; intros [= <-]; auto.
Qed.

(** C9, as stated, fails.  [cors()] and [express.json()] are registered
    before [basicAuth]: an [OPTIONS] request without any [Authorization]
    header is answered 204 by [cors()], and a request whose JSON body cannot
    be read is answered 500 by the error handler, neither with 401.  And a
    wrong pair can pass: with the pair [admin] / [s3cret] configured, the
    password [s3cret:anything] is let through. *)
Lemma bare_preflight_and_wrong_pair_pass :
  let cfg := mkConfig (Some "admin") (Some "s3cret") in
  app cfg (mkIncoming true true None Unrouted) (boot ∅ ∅)
  = (boot ∅ ∅, Some preflight_answer)
  ∧ r_code preflight_answer = 204
  ∧ app cfg (mkIncoming false false None (PostSendMessage (Some "alice") None None true))
      (boot ∅ ∅)
    = (boot ∅ ∅, Some (error_handler OtherError))
  ∧ r_code (error_handler OtherError) = 500
  ∧ "s3cret:anything" ≠ PASSWORD cfg
  ∧ basicAuth cfg (Some (basic_header "admin" "s3cret:anything")) = Next
  ∧ app cfg (mkIncoming false true (Some (basic_header "admin" "s3cret:anything")) GetHealth)
      (boot ∅ ∅)
    = route GetHealth (boot ∅ ∅).
Proof. split_and!; try reflexivity. discriminate. Qed.

(** C9, amended: no route handler, [/health] included, runs unless
    [basicAuth] has called [next()]: a request that is stopped earlier or
    rejected leaves the state alone.  [cors()] answers an [OPTIONS] request
    with 204 and the error handler answers a body [express.json()] cannot
    read with 500, both before [basicAuth] is reached.  A request that
    reaches [basicAuth] with no header, or with one that does not start with
    ["Basic "], gets 401.  For a header ["Basic " + base64(user:password)]
    with a 7-bit user name and password that hold no [':'], the request
    passes when the pair is the configured one and gets 403 otherwise.  With
    [BASIC_USER] and [BASIC_PASS] unset the configured pair is the empty one,
    and ["Basic " + base64(":")] passes. *)
Theorem basic_auth_gating (cfg : Config) (req : Incoming) (st : State) :
  (in_options req = true → app cfg req st = (st, Some preflight_answer))
  ∧ (in_options req = false → in_body_ok req = false →
       app cfg req st = (st, Some (error_handler OtherError)))
  ∧ (in_options req = false → in_body_ok req = true →
       (∀ r, basicAuth cfg (in_authorization req) = Reject r →
             app cfg req st = (st, Some r))
       ∧ (basicAuth cfg (in_authorization req) = Next →
            app cfg req st = route (in_request req) st))
  ∧ (basicAuth cfg (in_authorization req) ≠ Next → (app cfg req st).1 = st)
  ∧ (basicAuth cfg (in_authorization req) ≠ Next → in_request req = GetHealth →
       app cfg req st ≠ route GetHealth st)
  ∧ basicAuth cfg None = Reject (unauthorized 401)
  ∧ (∀ h, String.prefix "Basic " h = false →
          basicAuth cfg (Some h) = Reject (unauthorized 401))
  ∧ (∀ user password,
       is_ascii user = true → is_ascii password = true →
       no_colon user = true → no_colon password = true →
       basicAuth cfg (Some (basic_header user password))
       = if String.eqb user (default "" (BASIC_USER cfg))
            && String.eqb password (default "" (BASIC_PASS cfg))
         then Next else Reject (unauthorized 403))
  ∧ r_code (unauthorized 401) = 401 ∧ r_code (unauthorized 403) = 403
  ∧ basic_header "" "" = "Basic Og=="
  ∧ (BASIC_USER cfg = None → BASIC_PASS cfg = None →
       basicAuth cfg (Some "Basic Og==") = Next).
Proof.
  assert (∀ r, (st, Some r) = route GetHealth st → r = health st) as Hh
    by (by intros r [= ->]).
  split_and!; try reflexivity.
  - intros Ho. unfold app. by rewrite Ho.
  - intros Ho Hb. unfold app. by rewrite Ho, Hb.
  - intros Ho Hb. unfold app. rewrite Ho, Hb. cbn [negb].
    split; [by intros r -> | by intros ->].
  - intros Hn. unfold app. repeat case_match; try done.
  - intros Hn Hreq. unfold app. rewrite Hreq.
    destruct (in_options req); [intros H%Hh; discriminate H |].
    destruct (negb (in_body_ok req)); [intros H%Hh; discriminate H |].
    destruct (basicAuth cfg (in_authorization req)) as [| r] eqn:E; [done |].
    intros H%Hh. destruct (basicAuth_rejects _ _ _ E) as [-> | ->]; discriminate H.
  - intros h Hp. unfold basicAuth. rewrite Hp. by rewrite orb_true_r.
  - intros user password Hu Hp Hcu Hcp. unfold basicAuth.
    assert (String.prefix "Basic " (basic_header user password) = true) as Hpre
      by apply prefix_app.
    rewrite Hpre, (prefix_truthy "Basic " _ eq_refl Hpre). cbn [negb orb].
    rewrite parse_basic_header by done.
    rewrite USERNAME_default, PASSWORD_default.
    unfold first_piece. rewrite split_whole; [done |].
    unfold no_colon in Hcp. rewrite includes_char in Hcp. by apply negb_true_iff.
  - intros Hu Hp. unfold basicAuth, USERNAME, PASSWORD. by rewrite Hu, Hp.
Qed.


(** ** QR retrieval *)

Lemma qrAge_expired (now gen : Z) :
  Qgtb (qrAge now gen) (inject_Z qr_window) = (60000 <? now - gen)%Z.
Proof.
  unfold Qgtb, qrAge, Qle_bool, qr_window, inject_Z. cbn [Qnum Qden].
  rewrite Z.mul_1_r. change (60 * Z.pos 1000)%Z with 60000%Z.
  symmetry. apply Z.ltb_antisym.
Qed.

Lemma qrAge_floor (now gen : Z) : Qfloor (qrAge now gen) = ((now - gen) / 1000)%Z.
Proof. reflexivity. Qed.

(** [/qr] once the key is present, the instance is not reported connected and
    a payload resolves. *)
Lemma get_qr_resolved (env : QrEnv) (k : string) (st : State) (q : QrData) :
  truthy (Some k) = true →
  doc_connected (if qe_findOne_ok env then db st !! k else None)
    && (qe_findOne_ok env && has_sock st k) = false →
  resolve_qr st k (if qe_findOne_ok env then db st !! k else None) = Some q →
  get_qr env (Some k) st
  = if (60000 <? qe_now env - generatedAt q)%Z then
      (try_db (qe_update_ok env) (findOneAndUpdate k upd_clear_qr false)
              (set_qrCodes (delete k) st), qr_expired)
    else (st, qr_success (qd_qr q) (Z.max 0 (60 - (qe_now env - generatedAt q) / 1000))).
Proof.
  intros Hk Hc Hq. unfold get_qr. rewrite Hk. cbn [negb]. rewrite Hc, Hq.
  by rewrite qrAge_expired, qrAge_floor.
Qed.

Lemma findOneAndUpdate_lookup k u b m :
  findOneAndUpdate k u b m !! k
  = match m !! k with
    | Some d => Some (apply_update u d)
    | None => if b then Some (apply_update u fresh_doc) else None
    end.
Proof.
  unfold findOneAndUpdate. destruct (m !! k) eqn:E.
  - by rewrite lookup_insert_eq.
  - destruct b; [by rewrite lookup_insert_eq | done].
Qed.

(** C1, as stated, fails at its last clause: a code that is exactly 60
    seconds old is still served, with [expiresIn] 0, and nothing is cleared. *)
Lemma qr_at_exactly_the_window_is_served :
  let st := run alice_pairing (boot ∅ ∅) in
  let env := mkQrEnv 61000 true true in
  qrCodes st !! "alice" = Some (mkQr QR1 1000)
  ∧ (qe_now env - 1000 = 60 * 1000)%Z
  ∧ (get_qr env (Some "alice") st).2 = qr_success QR1 0
  ∧ (get_qr env (Some "alice") st).2 ≠ qr_expired
  ∧ (get_qr env (Some "alice") st).1 = st.
Proof. vm_compute. split_and!; try reflexivity. discriminate. Qed.

(** C1, amended: for a key that is not answered "already connected" and
    whose payload resolves, with [age] the milliseconds since issuance: when [age] is more than 60 seconds the
    handler drops the cache entry, answers "expired" and, when the store
    update does not throw, nulls [qr] and [qrGeneratedAt]; a payload is
    returned only when [age] is at most 60 seconds, with [expiresIn]
    [60 - floor(age / 1000)]; that is at least 1 below 60 seconds, 1 at 59
    seconds, and 0 at exactly 60 seconds, where the answer is still a
    success. *)
Theorem qr_retrieval_expiry (env : QrEnv) (k : string) (st : State) (q : QrData) :
  truthy (Some k) = true →
  doc_connected (if qe_findOne_ok env then db st !! k else None)
    && (qe_findOne_ok env && has_sock st k) = false →
  resolve_qr st k (if qe_findOne_ok env then db st !! k else None) = Some q →
  let age := (qe_now env - generatedAt q)%Z in
  let st' := (get_qr env (Some k) st).1 in
  let r := (get_qr env (Some k) st).2 in
  (60000 < age →
     r = qr_expired ∧ r_qr r = None ∧ qrCodes st' !! k = None
     ∧ (qe_update_ok env = true →
          db st' !! k = (λ d, mkDoc (connected d) None None) <$> db st !! k))
  ∧ (age ≤ 60000 → st' = st ∧ r = qr_success (qd_qr q) (60 - age / 1000))
  ∧ (age < 60000 → ∃ n, r_expiresIn r = Some n ∧ 1 ≤ n)
  ∧ (age = 59000 → r_expiresIn r = Some 1)
  ∧ (age = 60000 → r = qr_success (qd_qr q) 0)
  ∧ (is_Some (r_qr r) → age ≤ 60000).
Proof.
  intros Hk Hc Hq age st' r. subst st' r.
  rewrite (get_qr_resolved env k st q Hk Hc Hq). fold age.
  destruct (Z.ltb_spec 60000 age) as [Hlt | Hle]; cbn [fst snd].
  - split_and!; try (intros; lia).
    + intros _. split_and!; try reflexivity.
      * destruct (qe_update_ok env); cbn [try_db set_db set_qrCodes qrCodes];
          apply lookup_delete_eq.
      * intros ->. cbn [try_db set_db db set_qrCodes].
        rewrite findOneAndUpdate_lookup. by destruct (db st !! k).
    + intros [x Hx]. discriminate Hx.
  - assert (age / 1000 ≤ 60)%Z as Hdiv by (apply Z.div_le_upper_bound; lia).
    rewrite Z.max_r by lia.
    split_and!; try (intros; lia).
    + done.
    + intros Hlt. eexists. split; [reflexivity |].
      assert (age / 1000 < 60)%Z by (apply Z.div_lt_upper_bound; lia). lia.
    + intros ->. reflexivity.
    + intros ->. reflexivity.
Qed.

Lemma qr_retrieval_expiry_witness :
  let st := run alice_pairing (boot ∅ ∅) in
  (get_qr (mkQrEnv 61001 true true) (Some "alice") st).2 = qr_expired
  ∧ (get_qr (mkQrEnv 60000 true true) (Some "alice") st).2 = qr_success QR1 1.
Proof.
  split.
  - apply (qr_retrieval_expiry (mkQrEnv 61001 true true) "alice"
             (run alice_pairing (boot ∅ ∅)) (mkQr QR1 1000));
      vm_compute; reflexivity.
  - apply (qr_retrieval_expiry (mkQrEnv 60000 true true) "alice"
             (run alice_pairing (boot ∅ ∅)) (mkQr QR1 1000));
      vm_compute; try reflexivity. discriminate.
Defined.

(** ** Logout *)

(** C7: for a key without a live handle, logout makes no protocol-client
    call, drops the cache entry, removes the auth folder and deletes the
    durable record (each as far as the file system and the store let it:
    a throwing call is logged and the rest goes on), and answers success.
    On a key of which nothing is left it changes nothing at all. *)
Theorem logout_without_handle (env : LogoutEnv) (k : string) (st : State) :
  truthy (Some k) = true →
  sessions st !! k = None →
  let st' := (logoutInstance env k st).1 in
  let r := (logoutInstance env k st).2 in
  get_logout env (Some k) st = logoutInstance env k st
  ∧ r = reply_status 200 "success" ("Instance " ++ k ++ " logged out and session removed.")
  ∧ calls st' = calls st
  ∧ sessions st' !! k = None
  ∧ qrCodes st' !! k = None
  ∧ (lo_rm_ok env = true → k ∉ folders st')
  ∧ (lo_delete_ok env = true → db st' !! k = None)
  ∧ (qrCodes st !! k = None → k ∉ folders st → db st !! k = None → st' = st).
Proof.
  intros Hk Hs st' r. subst st' r.
  unfold get_logout, logoutInstance. rewrite Hk, (logout_socket_none _ _ Hs).
  cbn [negb fst snd].
  split_and!; try reflexivity.
  - unfold try_db. by repeat case_match.
  - unfold try_db. repeat case_match; cbn; apply lookup_delete_eq.
  - unfold try_db. repeat case_match; cbn; apply lookup_delete_eq.
  - intros ->. destruct (lo_delete_ok env); cbn; case_decide; cbn;
      rewrite ?elem_of_difference, ?elem_of_singleton; tauto.
  - intros ->. unfold findOneAndDelete. cbn. apply lookup_delete_eq.
  - intros Hq Hf Hd. destruct st as [ss qs gs d fs us ts aw cs]. cbn in *.
    rewrite decide_False by done.
    unfold try_db, set_db, set_qrCodes, set_sessions, findOneAndDelete. cbn.
    rewrite (delete_id ss), (delete_id qs) by done.
    destruct (lo_delete_ok env); [by rewrite (delete_id d) | done].
Qed.

Lemma logout_without_handle_witness :
  (logoutInstance logout_ok "bob" (boot ∅ ∅)).2
  = reply_status 200 "success" "Instance bob logged out and session removed."
  ∧ (logoutInstance logout_ok "bob" (boot ∅ ∅)).1 = boot ∅ ∅.
Proof.
  split.
  - apply (logout_without_handle logout_ok "bob" (boot ∅ ∅)); reflexivity.
  - apply (logout_without_handle logout_ok "bob" (boot ∅ ∅)); try reflexivity;
      cbn; set_solver.
Defined.

(** ** The close event *)

Lemma on_qr_frame env k u st :
  sessions (on_qr env k u st) = sessions st
  ∧ folders (on_qr env k u st) = folders st
  ∧ timers (on_qr env k u st) = timers st
  ∧ awaiting (on_qr env k u st) = awaiting st
  ∧ initializingSessions (on_qr env k u st) = initializingSessions st
  ∧ calls (on_qr env k u st) = calls st.
Proof. unfold on_qr, try_db. by repeat case_match. Qed.

Lemma on_qr_keeps_record env k u st :
  is_Some (db st !! k) → is_Some (db (on_qr env k u st) !! k).
Proof.
  intros [d Hd]. unfold on_qr, try_db. repeat case_match; cbn; try by rewrite Hd.
  rewrite findOneAndUpdate_lookup, Hd. by eexists.
Qed.

(** C5: a close event always removes the live handle and the cache entry and
    starts no creation sequence by itself.  When its reason is the remote
    logout, no reconnect is scheduled, and the auth folder and the durable
    record are removed (given that the removal and the deletion do not
    throw).  For any other reason a reconnect is scheduled with the fixed
    delay of 5000 ms, the auth folder stays, and a durable record that exists
    stays, with [connected = false] and no pairing code (given that the
    store update does not throw). *)
Theorem close_event_dichotomy (env : EventEnv) (k : string) (u : ConnectionUpdate)
    (st : State) :
  connection u = Some ConnClose →
  let st' := on_connection_update env k u st in
  sessions st' = delete k (sessions st)
  ∧ qrCodes st' !! k = None
  ∧ awaiting st' = awaiting st
  ∧ (statusCode u = Some loggedOut →
       timers st' = timers st
       ∧ (ev_rm_ok env = true → ev_delete_ok env = true →
            db st' !! k = None ∧ k ∉ folders st'))
  ∧ (statusCode u ≠ Some loggedOut →
       timers st' = enqueue (k, 5000) (timers st)
       ∧ folders st' = folders st
       ∧ (ev_close_db_ok env = true → is_Some (db st !! k) →
            ∃ d, db st' !! k = Some d
                 ∧ connected d = false ∧ qr d = None ∧ qrGeneratedAt d = None)).
Proof.
  intros Hc st'. subst st'. unfold on_connection_update. rewrite Hc.
  destruct (on_qr_frame env k u st) as (Hs & Hf & Ht & Ha & _ & _).
  pose proof (on_qr_keeps_record env k u st) as Hkeep.
  set (st1 := on_qr env k u st) in *. clearbody st1.
  unfold on_close, cleanup_logged_out, shouldReconnect, try_db.
  split_and!.
  - rewrite <- Hs. by repeat case_match.
  - repeat case_match; cbn; apply lookup_delete_eq.
  - rewrite <- Ha. by repeat case_match.
  - intros ->. cbn. split.
    + rewrite <- Ht. by repeat case_match.
    + intros -> ->. unfold findOneAndDelete.
      case_decide; cbn; (split; [apply lookup_delete_eq |]);
        rewrite ?elem_of_difference, ?elem_of_singleton; tauto.
  - intros Hne.
    assert (match statusCode u with Some c => negb (Z.eqb c loggedOut) | None => true end
            = true) as ->.
    { destruct (statusCode u) as [c|]; [| done].
      destruct (Z.eqb_spec c loggedOut); [congruence | done]. }
    split_and!.
    + rewrite <- Ht. by repeat case_match.
    + rewrite <- Hf. by repeat case_match.
    + intros -> [d Hd]%Hkeep. cbn. rewrite findOneAndUpdate_lookup, Hd.
      by eexists.
Qed.

Lemma close_event_dichotomy_witness :
  let st := run alice_pairing (boot ∅ ∅) in
  (db (on_connection_update (event_ok QR1 2000) "alice" (close_event 401) st) !! "alice" = None
   ∧ "alice" ∉ folders (on_connection_update (event_ok QR1 2000) "alice" (close_event 401) st))
  ∧ timers (on_connection_update (event_ok QR1 2000) "alice" (close_event 428) st)
    = enqueue ("alice", 5000) (timers st).
Proof.
  split.
  - apply (close_event_dichotomy (event_ok QR1 2000) "alice" (close_event 401)
             (run alice_pairing (boot ∅ ∅))); reflexivity.
  - apply (close_event_dichotomy (event_ok QR1 2000) "alice" (close_event 428)
             (run alice_pairing (boot ∅ ∅))); [reflexivity | discriminate].
Defined.

(** ** Send gating *)

Lemma inherited_truthy (k : string) : inherited k = true → truthy (Some k) = true.
Proof.
  intros H%bool_decide_eq_true. unfold object_prototype in H.
  repeat (apply elem_of_cons in H as [-> | H]; [reflexivity |]).
  by apply elem_of_nil in H.
Qed.

Lemma send_message_gate ok k n m st :
  truthy (Some k) = true → truthy (Some n) = true → truthy (Some m) = true →
  inherited k = false →
  (send_message ok (Some k) (Some n) (Some m) st).2 = not_connected
  ↔ sessions st !! k = None.
Proof.
  intros Hk Hn Hm Hi. unfold send_message, js_get. rewrite Hk, Hn, Hm, Hi. cbn [andb].
  destruct (sessions st !! k) as [sock|]; [| done].
  unfold send_via. by destruct ok.
Qed.

Lemma send_file_url_gate env k n url caption fileName st :
  truthy (Some k) = true → truthy (Some n) = true → truthy (Some url) = true →
  inherited k = false →
  (send_file_url env (Some k) (Some n) (Some url) caption fileName st).2 = not_connected
  ↔ sessions st !! k = None.
Proof.
  intros Hk Hn Hu Hi. unfold send_file_url, js_get. rewrite Hk, Hn, Hu, Hi. cbn [andb].
  destruct (sessions st !! k) as [sock|]; [| done].
  destruct (ue_download env) as [[data ct]|]; [| done].
  unfold send_via. by destruct (ue_send_ok env).
Qed.

Lemma send_file_gate env k n caption f st :
  truthy (Some k) = true → truthy (Some n) = true →
  inherited k = false →
  (send_file env (Some k) (Some n) caption (Some f) st).2 = not_connected
  ↔ sessions st !! k = None.
Proof.
  intros Hk Hn Hi. unfold send_file, js_get. rewrite Hk, Hn. simpl. rewrite Hi.
  destruct (sessions st !! k) as [sock|]; [| done].
  destruct (fe_read env) as [data|]; [| done].
  unfold send_via. by destruct (fe_send_ok env).
Qed.

(** Under a key that names an inherited member and holds nothing, the send
    handlers find the member: the call throws before anything is sent. *)
Lemma send_message_inherited ok k n m st :
  inherited k = true → truthy (Some n) = true → truthy (Some m) = true →
  sessions st !! k = None →
  send_message ok (Some k) (Some n) (Some m) st
  = (st, reply 500 false "Failed to send message to WhatsApp" None None).
Proof.
  intros Hi Hn Hm Hs. unfold send_message.
  by rewrite (inherited_truthy _ Hi), Hn, Hm, (js_get_inherited _ _ Hs Hi).
Qed.

Lemma send_file_url_inherited env k n url caption fileName st :
  inherited k = true → truthy (Some n) = true → truthy (Some url) = true →
  sessions st !! k = None →
  send_file_url env (Some k) (Some n) (Some url) caption fileName st
  = (st, reply 500 false
           match ue_download env with
           | Some _ => "Failed to send file to WhatsApp"
           | None => "Failed to download file from URL"
           end None None).
Proof.
  intros Hi Hn Hu Hs. unfold send_file_url.
  rewrite (inherited_truthy _ Hi), Hn, Hu, (js_get_inherited _ _ Hs Hi). cbn [andb].
  by destruct (ue_download env).
Qed.

Lemma send_file_inherited env k n caption f st :
  inherited k = true → truthy (Some n) = true →
  sessions st !! k = None →
  (send_file env (Some k) (Some n) caption (Some f) st).2
  = reply 500 false
      match fe_read env with
      | Some _ => "Failed to send file to WhatsApp"
      | None => "Failed to read uploaded file"
      end None None
  ∧ calls (send_file env (Some k) (Some n) caption (Some f) st).1 = calls st.
Proof.
  intros Hi Hn Hs. unfold send_file.
  rewrite (inherited_truthy _ Hi), Hn. simpl.
  rewrite (js_get_inherited _ _ Hs Hi).
  destruct (fe_read env); cbn [fst snd]; by rewrite !unlink_if_exists_calls.
Qed.

(** The send handlers never read the store: they commute with any change of
    it. *)
Lemma send_message_ignores_db g ok q n m st :
  send_message ok q n m (set_db g st)
  = (set_db g (send_message ok q n m st).1, (send_message ok q n m st).2).
Proof.
  unfold send_message, send_via, send_throws. change (sessions (set_db g st)) with (sessions st).
  by repeat case_match.
Qed.

Lemma send_file_url_ignores_db g env q n u c fn st :
  send_file_url env q n u c fn (set_db g st)
  = (set_db g (send_file_url env q n u c fn st).1, (send_file_url env q n u c fn st).2).
Proof.
  unfold send_file_url, send_via, send_throws. change (sessions (set_db g st)) with (sessions st).
  by repeat case_match.
Qed.

Lemma unlink_if_exists_set_db ok p g st :
  unlink_if_exists ok p (set_db g st) = set_db g (unlink_if_exists ok p st).
Proof. unfold unlink_if_exists. cbn. by repeat case_match. Qed.

Lemma send_file_ignores_db g env q n c f st :
  send_file env q n c f (set_db g st)
  = (set_db g (send_file env q n c f st).1, (send_file env q n c f st).2).
Proof.
  unfold send_file. destruct f as [f|]; [| done].
  change (set_uploads ?h (set_db g st)) with (set_db g (set_uploads h st)).
  set (st0 := set_uploads _ st). clearbody st0.
  destruct (truthy q && truthy n);
    [| by destruct (fe_unlink_ok env), (truthy (Some (up_path f)))].
  change (sessions (set_db g st0)) with (sessions st0).
  destruct (js_get (sessions st0) _) as [sock| |].
  - destruct (fe_read env) as [data|].
    + unfold send_via. destruct (fe_send_ok env); cbn [fst snd];
        change (record_call ?x (set_db g st0)) with (set_db g (record_call x st0));
        by rewrite unlink_if_exists_set_db.
    + by rewrite !unlink_if_exists_set_db.
  - destruct (fe_read env) as [data|]; unfold send_throws; cbn [fst snd];
      by rewrite !unlink_if_exists_set_db.
  - by rewrite !unlink_if_exists_set_db.
Qed.

(** C10: the handle is put into [sessions] when the socket is created,
    before any pairing or open event, and no send operation reads the store.
    For a key that names no inherited member each of the three send
    operations answers "not connected" exactly when [sessions] holds nothing
    under the key, and with a handle stored the protocol send is made (once
    the file is downloaded or read, for the two file routes).  For a key that
    names a member of [Object.prototype], such as ["constructor"], the check
    misses: nothing is stored under it, yet the handlers find the inherited
    member, and the answer is the 500 of a failed send, not "not
    connected". *)
Theorem send_gated_by_registry_only (k n : string) (st : State) :
  truthy (Some k) = true →
  truthy (Some n) = true →
  inherited k = false →
  (∀ sock, sessions (initWhatsApp_resume true (Some sock) k st).1 !! k = Some sock
           ∧ db (initWhatsApp_resume true (Some sock) k st).1 = db st)
  ∧ (∀ ok m, truthy (Some m) = true →
       (send_message ok (Some k) (Some n) (Some m) st).2 = not_connected
       ↔ sessions st !! k = None)
  ∧ (∀ env url caption fileName, truthy (Some url) = true →
       (send_file_url env (Some k) (Some n) (Some url) caption fileName st).2 = not_connected
       ↔ sessions st !! k = None)
  ∧ (∀ env caption f,
       (send_file env (Some k) (Some n) caption (Some f) st).2 = not_connected
       ↔ sessions st !! k = None)
  ∧ (∀ g ok m,
       send_message ok (Some k) (Some n) (Some m) (set_db g st)
       = (set_db g (send_message ok (Some k) (Some n) (Some m) st).1,
          (send_message ok (Some k) (Some n) (Some m) st).2))
  ∧ (∀ g env url caption fileName,
       send_file_url env (Some k) (Some n) (Some url) caption fileName (set_db g st)
       = (set_db g (send_file_url env (Some k) (Some n) (Some url) caption fileName st).1,
          (send_file_url env (Some k) (Some n) (Some url) caption fileName st).2))
  ∧ (∀ g env caption f,
       send_file env (Some k) (Some n) caption (Some f) (set_db g st)
       = (set_db g (send_file env (Some k) (Some n) caption (Some f) st).1,
          (send_file env (Some k) (Some n) caption (Some f) st).2))
  ∧ (∀ sock ok m, truthy (Some m) = true → sessions st !! k = Some sock →
       calls (send_message ok (Some k) (Some n) (Some m) st).1
       = enqueue (SockSendMessage sock (to_jid n) (Text m)) (calls st))
  ∧ (∀ sock env url caption fileName data ct,
       truthy (Some url) = true → sessions st !! k = Some sock →
       ue_download env = Some (data, ct) →
       ∃ c, calls (send_file_url env (Some k) (Some n) (Some url) caption fileName st).1
            = enqueue (SockSendMessage sock (to_jid n) c) (calls st))
  ∧ (∀ sock env caption f data,
       sessions st !! k = Some sock → fe_read env = Some data →
       ∃ c, calls (send_file env (Some k) (Some n) caption (Some f) st).1
            = enqueue (SockSendMessage sock (to_jid n) c) (calls st))
  ∧ (∀ k0, inherited k0 = true → sessions st !! k0 = None →
       (∀ ok m, truthy (Some m) = true →
          send_message ok (Some k0) (Some n) (Some m) st
          = (st, reply 500 false "Failed to send message to WhatsApp" None None))
       ∧ (∀ env url caption fileName, truthy (Some url) = true →
          (send_file_url env (Some k0) (Some n) (Some url) caption fileName st).2
          ≠ not_connected
          ∧ (send_file_url env (Some k0) (Some n) (Some url) caption fileName st).1 = st)
       ∧ (∀ env caption f,
          (send_file env (Some k0) (Some n) caption (Some f) st).2 ≠ not_connected
          ∧ calls (send_file env (Some k0) (Some n) caption (Some f) st).1 = calls st))
  ∧ sessions (boot ∅ ∅) !! "constructor" = None
  ∧ send_message true (Some "constructor") (Some "1555") (Some "hi") (boot ∅ ∅)
    = (boot ∅ ∅, reply 500 false "Failed to send message to WhatsApp" None None)
  ∧ reply 500 false "Failed to send message to WhatsApp" None None ≠ not_connected.
Proof.
  intros Hk Hn Hi. split_and!; try done.
  - intros sock. cbn. split; [apply lookup_insert_eq | done].
  - intros. by apply send_message_gate.
  - intros. by apply send_file_url_gate.
  - intros. by apply send_file_gate.
  - intros. apply send_message_ignores_db.
  - intros. apply send_file_url_ignores_db.
  - intros. apply send_file_ignores_db.
  - intros. erewrite send_message_live by eassumption. apply send_via_calls.
  - intros sock env url caption fileName data ct Hu Hs Hd.
    destruct (send_file_url_live env k n url caption fileName data ct sock st)
      as [c ->]; try done.
    exists c. apply send_via_calls.
  - intros. by eapply send_file_live.
  - intros k0 Hi0 Hs0. split_and!.
    + intros. by apply send_message_inherited.
    + intros env url caption fileName Hu.
      rewrite send_file_url_inherited by done. by destruct (ue_download env).
    + intros env caption f.
      destruct (send_file_inherited env k0 n caption f st Hi0 Hn Hs0) as [-> ->].
      by destruct (fe_read env).
Qed.

Lemma send_gated_by_registry_only_witness :
  let st := run alice_started (boot ∅ ∅) in
  doc_connected (db st !! "alice") = false
  ∧ calls (send_message true (Some "alice") (Some "1555") (Some "hi") st).1
    = [SockSendMessage 1%nat "1555@s.whatsapp.net" (Text "hi")]
  ∧ (send_message true (Some "bob") (Some "1555") (Some "hi") st).2 = not_connected.
Proof.
  split_and!.
  - reflexivity.
  - destruct (send_gated_by_registry_only "alice" "1555" (run alice_started (boot ∅ ∅))
                eq_refl eq_refl eq_refl) as (_ & _ & _ & _ & _ & _ & _ & H & _).
    exact (H 1%nat true "hi" eq_refl eq_refl).
  - destruct (send_gated_by_registry_only "bob" "1555" (run alice_started (boot ∅ ∅))
                eq_refl eq_refl eq_refl) as (_ & H & _).
    apply (H true "hi" eq_refl). reflexivity.
Defined.

(** ** The writes to the store *)

Lemma writes_try_update ok k u upsert st m :
  source_update u → rtc store_write m (db st) →
  rtc store_write m (db (try_db ok (findOneAndUpdate k u upsert) st)).
Proof.
  intros Hu Hm. destruct ok; [| done].
  eapply rtc_r; [exact Hm |]. by constructor.
Qed.

Lemma writes_try_delete ok k st m :
  rtc store_write m (db st) →
  rtc store_write m (db (try_db ok (findOneAndDelete k) st)).
Proof.
  intros Hm. destruct ok; [| done].
  eapply rtc_r; [exact Hm |]. constructor.
Qed.

Lemma source_placeholder : source_update upd_placeholder.
Proof. by left. Qed.

Lemma source_qr img t : source_update (upd_qr img t).
Proof. right; left. by exists img, t. Qed.

Lemma source_open : source_update upd_open.
Proof. right; right; by left. Qed.

Lemma source_clear_qr : source_update upd_clear_qr.
Proof. by repeat right. Qed.

(** The setters of the other components leave the store alone. *)
Ltac db_frames :=
  repeat match goal with
    | |- context [db (set_sessions ?f ?s)] => change (db (set_sessions f s)) with (db s)
    | |- context [db (set_qrCodes ?f ?s)] => change (db (set_qrCodes f s)) with (db s)
    | |- context [db (set_initializing ?f ?s)] => change (db (set_initializing f s)) with (db s)
    | |- context [db (set_folders ?f ?s)] => change (db (set_folders f s)) with (db s)
    | |- context [db (set_uploads ?f ?s)] => change (db (set_uploads f s)) with (db s)
    | |- context [db (set_timers ?f ?s)] => change (db (set_timers f s)) with (db s)
    | |- context [db (set_awaiting ?f ?s)] => change (db (set_awaiting f s)) with (db s)
    | |- context [db (set_calls ?f ?s)] => change (db (set_calls f s)) with (db s)
    | |- context [db (record_call ?c ?s)] => change (db (record_call c s)) with (db s)
    end.

Lemma db_try_db ok f st : db (try_db ok f st) = if ok then f (db st) else db st.
Proof. by destruct ok. Qed.

(** A store reached by a chain of the source's writes. *)
Ltac writes_tac :=
  repeat first [rewrite db_try_db | progress db_frames];
  repeat case_match;
  repeat first
    [ assumption
    | exact (rtc_refl _ _)
    | eapply rtc_r;
      [| first [ apply write_delete
               | apply write_update; auto with writes ] ] ].

Create HintDb writes.
#[local] Hint Resolve writes_try_update writes_try_delete source_placeholder source_qr
  source_open source_clear_qr : writes.
#[local] Hint Extern 1 (rtc store_write _ _) => exact (rtc_refl _ _) : writes.

Lemma initWhatsApp_begin_db mk who k st : db (initWhatsApp_begin mk who k st).1 = db st.
Proof. unfold initWhatsApp_begin. by repeat case_match. Qed.

Lemma initWhatsApp_resume_db a mk k st : db (initWhatsApp_resume a mk k st).1 = db st.
Proof. unfold initWhatsApp_resume. by repeat case_match. Qed.

Lemma on_connection_update_writes env k u st :
  rtc store_write (db st) (db (on_connection_update env k u st)).
Proof.
  assert (rtc store_write (db st) (db (on_qr env k u st))) as H1.
  { unfold on_qr. repeat case_match; writes_tac. }
  unfold on_connection_update, on_open, on_close, cleanup_logged_out.
  repeat case_match; writes_tac.
Qed.

Lemma start_session_writes env q st :
  rtc store_write (db st) (db (start_session env q st).1).
Proof.
  unfold start_session. repeat case_match; cbn [fst]; auto with writes.
  all: match goal with
       | H : initWhatsApp_begin ?a ?b ?c ?s = (?s', _) |- _ =>
           replace (db s') with (db s)
             by (rewrite <- (initWhatsApp_begin_db a b c s); by rewrite H)
       end; auto with writes.
Qed.

Lemma get_qr_writes env q st : rtc store_write (db st) (db (get_qr env q st).1).
Proof. unfold get_qr. repeat case_match; cbn [fst]; writes_tac. Qed.

Lemma logoutInstance_writes env k st :
  rtc store_write (db st) (db (logoutInstance env k st).1).
Proof. unfold logoutInstance, logout_socket. repeat case_match; cbn [fst]; writes_tac. Qed.

Lemma send_message_db ok q n m st : db (send_message ok q n m st).1 = db st.
Proof. unfold send_message, send_via, send_throws. by repeat case_match. Qed.

Lemma send_file_url_db env q n u c f st : db (send_file_url env q n u c f st).1 = db st.
Proof. unfold send_file_url, send_via, send_throws. by repeat case_match. Qed.

Lemma unlink_if_exists_db ok p st : db (unlink_if_exists ok p st) = db st.
Proof. unfold unlink_if_exists. by repeat case_match. Qed.

Lemma send_file_db env q n c f st : db (send_file env q n c f st).1 = db st.
Proof.
  unfold send_file, send_via, send_throws.
  repeat case_match; simplify_eq; cbn [fst]; by rewrite ?unlink_if_exists_db.
Qed.

Lemma get_logout_writes env q st : rtc store_write (db st) (db (get_logout env q st).1).
Proof. unfold get_logout. repeat case_match; try done; apply logoutInstance_writes. Qed.

Lemma answered_fst {A B} (p : A * B) : (let (a, b) := p in (a, Some b)).1 = p.1.
Proof. by destruct p. Qed.

Lemma route_writes req st : rtc store_write (db st) (db (route req st).1).
Proof.
  destruct req; cbn [route]; rewrite ?answered_fst.
  - apply start_session_writes.
  - apply get_qr_writes.
  - by rewrite send_message_db.
  - by rewrite send_file_url_db.
  - by rewrite send_file_db.
  - apply get_logout_writes.
  - done.
  - done.
Qed.

Lemma exec_writes o st : rtc store_write (db st) (db (exec o st)).
Proof.
  destruct o as [req | k u env | mk | k env | k mk ok]; cbn [exec].
  - apply route_writes.
  - apply on_connection_update_writes.
  - unfold fire_timer. repeat case_match; [done |]. by rewrite initWhatsApp_begin_db.
  - unfold resume. repeat case_match; cbn [fst]; try done.
    all: match goal with
         | H : initWhatsApp_resume ?a ?b ?c ?s = (?s', _) |- _ =>
             pose proof (initWhatsApp_resume_db a b c s) as Hdb; rewrite H in Hdb;
             cbn [fst] in Hdb
         end.
    all: try (rewrite Hdb; done).
    apply writes_try_update; [apply source_placeholder |]. by rewrite Hdb.
  - unfold load_session. repeat case_match.
    all: match goal with
         | H : initWhatsApp_begin ?a ?b ?c ?s = (?s', _) |- _ =>
             pose proof (initWhatsApp_begin_db a b c s) as Hdb; rewrite H in Hdb;
             cbn [fst] in Hdb
         end.
    all: try (rewrite Hdb; done).
    apply writes_try_update; [apply source_placeholder |]. by rewrite Hdb.
Qed.

(** ** The invariant of the durable record *)

(** Whatever the document was, each update of the source leaves it
    well-formed. *)
Lemma source_update_doc_ok u d : source_update u → doc_ok (apply_update u d).
Proof.
  intros [-> | [(img & t & ->) | [-> | ->]]]; unfold doc_ok; cbn.
  - split; [by intros [_ ?] | by split; intros [? ?]].
  - split; [by intros [? _] | by split; intros _; eexists].
  - split; [by intros [_ ?] | by split; intros [? ?]].
  - split; [by intros [_ ?] | by split; intros [? ?]].
Qed.

Lemma store_write_ok m m' : store_write m m' → store_ok m → store_ok m'.
Proof.
  intros [k u upsert m0 Hu | k m0] Hok.
  - unfold findOneAndUpdate. destruct (m0 !! k) eqn:E.
    + apply map_Forall_insert_2; [by apply source_update_doc_ok | done].
    + destruct upsert; [| done].
      apply map_Forall_insert_2; [by apply source_update_doc_ok | done].
  - by apply map_Forall_delete.
Qed.

Lemma store_writes_ok m m' : rtc store_write m m' → store_ok m → store_ok m'.
Proof. induction 1; eauto using store_write_ok. Qed.

Lemma run_cons o ops st : run (o :: ops) st = run ops (exec o st).
Proof. reflexivity. Qed.

Lemma run_writes ops st : rtc store_write (db st) (db (run ops st)).
Proof.
  revert st. induction ops as [|o ops IH]; intros st; [done |].
  rewrite run_cons. etrans; [apply exec_writes | apply IH].
Qed.

(** C4: along every run (requests, connection events, timers, resumed
    initializations, start-up loading), from a store whose documents are
    well-formed, no document is both connected and holding a non-empty
    pairing code, and a document has [qrGeneratedAt] exactly when it has
    [qr]. *)
Theorem durable_record_invariant (ops : list Op) (st : State) :
  store_ok (db st) →
  ∀ k d, db (run ops st) !! k = Some d →
    ¬ (connected d = true ∧ truthy (qr d) = true)
    ∧ (is_Some (qrGeneratedAt d) ↔ is_Some (qr d)).
Proof.
  intros Hok k d Hd.
  pose proof (store_writes_ok _ _ (run_writes ops st) Hok) as H.
  exact (H k d Hd).
Qed.

Lemma durable_record_invariant_witness :
  doc_ok (mkDoc false (Some QR1) (Some 1000))
  ∧ doc_ok (mkDoc true None None).
Proof.
  split.
  - exact (durable_record_invariant alice_pairing (boot ∅ ∅) (map_Forall_empty _)
             "alice" _ eq_refl).
  - exact (durable_record_invariant
             (alice_pairing ++ [OpEvent "alice" open_event (event_ok QR1 2000)])%list
             (boot ∅ ∅) (map_Forall_empty _) "alice" _ eq_refl).
Defined.

(** ** The guard and the registry *)

Lemma guard_inv_frame st st' :
  initializingSessions st' = initializingSessions st →
  (∀ k, sessions st !! k = None → sessions st' !! k = None) →
  guard_inv st → guard_inv st'.
Proof.
  intros Hg Hs Hinv k Hk. unfold guard_set in Hk. rewrite Hg in Hk.
  destruct (Hinv k Hk) as [H1 H2]. auto.
Qed.

Lemma guard_set_deleted k k' st :
  guard_set (set_initializing (delete k) st) k' = true → k ≠ k' ∧ guard_set st k' = true.
Proof.
  unfold guard_set. cbn. rewrite lookup_delete. case_decide; [done |]. auto.
Qed.

Lemma initWhatsApp_begin_guard mk who k st :
  guard_inv st → guard_inv (initWhatsApp_begin mk who k st).1.
Proof.
  intros Hinv. unfold initWhatsApp_begin. rewrite has_sock_or_initializing.
  assert (∀ s, guard_inv s → guard_inv (init_finally k s)) as Hfin.
  { intros s Hs k' [Hne Hk']%guard_set_deleted. exact (Hs k' Hk'). }
  assert (∀ s, guard_inv s → guard_inv (init_catch k s)) as Hcatch.
  { intros s Hs. apply (guard_inv_frame s); [done | | exact Hs].
    intros k' Hk'. cbn. rewrite lookup_delete. by case_decide. }
  destruct (negb (truthy (Some k))) eqn:Hk; cbn [fst]; [auto |].
  destruct (has_sock st k || guard_set st k) eqn:Hfree; cbn [fst]; [auto |].
  apply orb_false_iff in Hfree as [Hsock Hguard]. apply negb_false_iff in Hk.
  assert (guard_inv (set_initializing <[k:=true]> st)) as H1.
  { intros k'. unfold guard_set. cbn. rewrite lookup_insert. case_decide as Hkk.
    - subst k'. intros _. split; [| done]. by apply has_sock_false in Hsock as [? _].
    - apply Hinv. }
  repeat case_match; cbn [fst]; auto.
  all: by apply (guard_inv_frame (set_initializing <[k:=true]> st)).
Qed.

Lemma initWhatsApp_resume_guard a mk k st :
  guard_inv st → guard_inv (initWhatsApp_resume a mk k st).1.
Proof.
  intros Hinv. unfold initWhatsApp_resume.
  repeat case_match; cbn [fst]; intros k' [Hne Hk']%guard_set_deleted;
    destruct (Hinv k' Hk') as [H1 H2]; (split; [| done]); cbn.
  - by rewrite lookup_insert_ne.
  - by rewrite lookup_delete_ne.
  - by rewrite lookup_delete_ne.
Qed.

Lemma shrinks_guard st st' : shrinks st st' → guard_inv st → guard_inv st'.
Proof. intros [H1 H2]. by apply guard_inv_frame. Qed.

Ltac shrinks_tac :=
  split;
  [ by repeat case_match
  | intros ? ?; repeat case_match; cbn;
    rewrite ?lookup_delete;
    try match goal with |- context [decide (?a = ?b)] => destruct (decide (a = b)) end;
    done ].

Lemma try_db_shrinks ok f st : shrinks st (try_db ok f st).
Proof. unfold try_db. shrinks_tac. Qed.

Lemma on_connection_update_shrinks env k u st :
  shrinks st (on_connection_update env k u st).
Proof.
  unfold on_connection_update, on_qr, on_open, on_close, cleanup_logged_out, try_db.
  shrinks_tac.
Qed.

Lemma get_qr_shrinks env q st : shrinks st (get_qr env q st).1.
Proof. unfold get_qr, try_db. shrinks_tac. Qed.

Lemma get_logout_shrinks env q st : shrinks st (get_logout env q st).1.
Proof. unfold get_logout, logoutInstance, logout_socket, try_db. shrinks_tac. Qed.

Lemma send_message_shrinks ok q n m st : shrinks st (send_message ok q n m st).1.
Proof. unfold send_message, send_via, send_throws. shrinks_tac. Qed.

Lemma send_file_url_shrinks env q n u c f st :
  shrinks st (send_file_url env q n u c f st).1.
Proof. unfold send_file_url, send_via, send_throws. shrinks_tac. Qed.

Lemma send_file_shrinks env q n c f st : shrinks st (send_file env q n c f st).1.
Proof.
  unfold send_file, send_via, send_throws, unlink_if_exists.
  split; repeat case_match; simplify_eq; cbn; try done.
  all: intros ? ?; repeat case_match; done.
Qed.

Lemma start_session_guard env q st :
  guard_inv st → guard_inv (start_session env q st).1.
Proof.
  intros Hinv. unfold start_session.
  destruct q as [k|]; [| done].
  repeat (case_match; try done).
  all: match goal with
       | H : initWhatsApp_begin ?a ?b ?c ?s = (?s', _) |- _ =>
           change s' with ((s', InitAwaits).1); cbn [fst];
           replace s' with (initWhatsApp_begin a b c s).1 by (by rewrite H)
       end.
  all: apply initWhatsApp_begin_guard; apply (shrinks_guard st); [apply try_db_shrinks | done].
Qed.

Lemma route_guard req st : guard_inv st → guard_inv (route req st).1.
Proof.
  intros Hinv. destruct req; cbn [route]; rewrite ?answered_fst; try done.
  - by apply start_session_guard.
  - apply (shrinks_guard st); [apply get_qr_shrinks | done].
  - apply (shrinks_guard st); [apply send_message_shrinks | done].
  - apply (shrinks_guard st); [apply send_file_url_shrinks | done].
  - apply (shrinks_guard st); [apply send_file_shrinks | done].
  - apply (shrinks_guard st); [apply get_logout_shrinks | done].
Qed.

Lemma exec_guard o st : guard_inv st → guard_inv (exec o st).
Proof.
  intros Hinv. destruct o as [req | k u env | mk | k env | k mk ok]; cbn [exec].
  - by apply route_guard.
  - apply (shrinks_guard st); [apply on_connection_update_shrinks | done].
  - unfold fire_timer. destruct (timers st) as [|[k d] rest]; [done |].
    apply initWhatsApp_begin_guard. by apply (shrinks_guard st).
  - unfold resume. destruct (take_awaiting k (awaiting st)) as [[who rest]|]; [| done].
    pose proof (initWhatsApp_resume_guard (re_auth_ok env) (re_makeWASocket env) k
                  (set_awaiting (λ _, rest) st)) as H.
    destruct (initWhatsApp_resume _ _ _ _) as [st1 r]. cbn [fst] in H.
    assert (guard_inv st1) as H1 by (apply H; by apply (shrinks_guard st)).
    destruct who, r; cbn [fst]; try done.
    apply (shrinks_guard st1); [apply try_db_shrinks | done].
  - unfold load_session.
    pose proof (initWhatsApp_begin_guard mk ByLoadSessions k st Hinv) as H.
    destruct (initWhatsApp_begin _ _ _ _) as [st1 r]. cbn [fst] in H.
    destruct r; try done. apply (shrinks_guard st1); [apply try_db_shrinks | done].
Qed.

Lemma reachable_guard st : reachable st → guard_inv st.
Proof.
  intros (d & fs & ops & ->).
  assert (guard_inv (boot d fs)) as H by (intros k; by unfold guard_set).
  revert H. generalize (boot d fs). induction ops as [|o ops IH]; intros s Hs; [done |].
  rewrite run_cons. by apply IH, exec_guard.
Qed.

(** ** Keys that name an inherited member *)

Ltac keeps_tac := split; by repeat case_match.

Lemma try_db_keeps ok f st : keeps_sequences st (try_db ok f st).
Proof. unfold try_db. keeps_tac. Qed.

Lemma on_connection_update_keeps env k u st :
  keeps_sequences st (on_connection_update env k u st).
Proof.
  unfold on_connection_update, on_qr, on_open, on_close, cleanup_logged_out, try_db.
  keeps_tac.
Qed.

Lemma get_qr_keeps env q st : keeps_sequences st (get_qr env q st).1.
Proof. unfold get_qr, try_db. keeps_tac. Qed.

Lemma get_logout_keeps env q st : keeps_sequences st (get_logout env q st).1.
Proof. unfold get_logout, logoutInstance, logout_socket, try_db. keeps_tac. Qed.

Lemma send_message_keeps ok q n m st : keeps_sequences st (send_message ok q n m st).1.
Proof. unfold send_message, send_via, send_throws. keeps_tac. Qed.

Lemma send_file_url_keeps env q n u c f st :
  keeps_sequences st (send_file_url env q n u c f st).1.
Proof. unfold send_file_url, send_via, send_throws. keeps_tac. Qed.

Lemma send_file_keeps env q n c f st : keeps_sequences st (send_file env q n c f st).1.
Proof.
  unfold send_file, send_via, send_throws, unlink_if_exists.
  split; repeat case_match; simplify_eq; cbn; by repeat case_match.
Qed.

Lemma own_names_frame st st' :
  shrinks st st' → keeps_sequences st st' → own_names st → own_names st'.
Proof.
  intros [Hg Hs] [_ Ha] H k Hk. destruct (H k Hk) as (H1 & H2 & H3).
  split_and!; [by apply Hs | unfold guard_set; by rewrite Hg | by rewrite Ha].
Qed.

Lemma initWhatsApp_begin_names mk who k st :
  own_names st → own_names (initWhatsApp_begin mk who k st).1.
Proof.
  intros H. unfold initWhatsApp_begin. rewrite has_sock_or_initializing.
  assert (∀ s, own_names s → own_names (init_finally k s)) as Hfin.
  { intros s Hs k1 Hk1. destruct (Hs k1 Hk1) as (H1 & H2 & H3). split_and!; try done.
    unfold guard_set in *. cbn. rewrite lookup_delete. by case_decide. }
  assert (∀ s, own_names s → own_names (init_catch k s)) as Hcatch.
  { intros s Hs k1 Hk1. destruct (Hs k1 Hk1) as (H1 & H2 & H3). split_and!; try done.
    cbn. rewrite lookup_delete. by case_decide. }
  destruct (negb (truthy (Some k))); cbn [fst]; [auto |].
  destruct (has_sock st k || guard_set st k) eqn:Hfree; cbn [fst]; [auto |].
  apply orb_false_iff in Hfree as [[Hsock Hi]%has_sock_false Hguard].
  assert (own_names (set_initializing <[k:=true]> st)) as H1.
  { intros k1 Hk1. destruct (H k1 Hk1) as (H1 & H2 & H3). split_and!; try done.
    unfold guard_set in *. cbn. rewrite lookup_insert_ne; [done | congruence]. }
  assert (∀ s, own_names s → own_names (set_awaiting (enqueue (k, who)) s)) as Hq.
  { intros s Hs k1 Hk1. destruct (Hs k1 Hk1) as (H2 & H3 & H4). split_and!; try done.
    unfold enqueue. cbn. rewrite fmap_app, elem_of_app. intros [? | Hin]; [done |].
    cbn in Hin. apply list_elem_of_singleton in Hin. congruence. }
  repeat case_match; cbn [fst]; auto.
Qed.

Lemma take_awaiting_subset k l who rest :
  take_awaiting k l = Some (who, rest) →
  k ∈ l.*1 ∧ ∀ k', k' ∈ rest.*1 → k' ∈ l.*1.
Proof.
  revert who rest. induction l as [|[k0 w0] l IH]; intros who rest; [done |].
  cbn [take_awaiting]. destruct (String.eqb_spec k k0) as [<- | Hne].
  - intros [= <- <-]. cbn. split; [by left |]. intros k' Hk'. by right.
  - destruct (take_awaiting k l) as [[w r]|]; [| done].
    intros [= <- <-]. destruct (IH w r eq_refl) as [H1 H2]. cbn. split; [by right |].
    intros k'. rewrite !elem_of_cons. intros [-> | Hin]; [by left |]. right. by apply H2.
Qed.

Lemma resume_names env k st : own_names st → own_names (resume env k st).1.
Proof.
  intros H. unfold resume.
  destruct (take_awaiting k (awaiting st)) as [[who rest]|] eqn:Ht; [| done].
  destruct (take_awaiting_subset _ _ _ _ Ht) as [Hin Hsub].
  assert (inherited k = false) as Hi.
  { destruct (inherited k) eqn:E; [| done]. by destruct (H k E) as (_ & _ & ?). }
  assert (own_names
            (initWhatsApp_resume (re_auth_ok env) (re_makeWASocket env) k
               (set_awaiting (λ _, rest) st)).1) as H1.
  { unfold initWhatsApp_resume.
    repeat case_match; cbn [fst]; intros k1 Hk1; destruct (H k1 Hk1) as (H2 & H3 & H4);
      (split_and!; [| | intros Hr; by apply H4, Hsub]); unfold guard_set in *; cbn;
      rewrite ?lookup_delete; repeat case_decide; try done.
    rewrite lookup_insert_ne; [done | congruence]. }
  destruct (initWhatsApp_resume _ _ _ _) as [st1 r]. cbn [fst] in H1.
  destruct who, r; cbn [fst]; try done.
  apply (own_names_frame st1); [apply try_db_shrinks | apply try_db_keeps | done].
Qed.

Lemma exec_names o st : own_names st → own_names (exec o st).
Proof.
  intros Hinv. destruct o as [req | k u env | mk | k env | k mk ok]; cbn [exec].
  - destruct req; cbn [route]; rewrite ?answered_fst; try done.
    + unfold start_session. repeat (case_match; try done); simplify_eq; cbn [fst].
      all: match goal with
           | H : initWhatsApp_begin ?a ?b ?c ?s = (?s', _) |- _ =>
               replace s' with (initWhatsApp_begin a b c s).1 by (by rewrite H)
           end; apply initWhatsApp_begin_names;
           (apply (own_names_frame st); [apply try_db_shrinks | apply try_db_keeps | done]).
    + apply (own_names_frame st); [apply get_qr_shrinks | apply get_qr_keeps | done].
    + apply (own_names_frame st);
        [apply send_message_shrinks | apply send_message_keeps | done].
    + apply (own_names_frame st);
        [apply send_file_url_shrinks | apply send_file_url_keeps | done].
    + apply (own_names_frame st); [apply send_file_shrinks | apply send_file_keeps | done].
    + apply (own_names_frame st); [apply get_logout_shrinks | apply get_logout_keeps | done].
  - apply (own_names_frame st);
      [apply on_connection_update_shrinks | apply on_connection_update_keeps | done].
  - unfold fire_timer. destruct (timers st) as [|[k d] rest]; [done |].
    apply initWhatsApp_begin_names. by apply (own_names_frame st).
  - by apply resume_names.
  - unfold load_session.
    pose proof (initWhatsApp_begin_names mk ByLoadSessions k st Hinv) as H.
    destruct (initWhatsApp_begin _ _ _ _) as [st1 r]. cbn [fst] in H.
    destruct r; try done.
    apply (own_names_frame st1); [apply try_db_shrinks | apply try_db_keeps | done].
Qed.

Lemma reachable_names st : reachable st → own_names st.
Proof.
  intros (d & fs & ops & ->).
  assert (own_names (boot d fs)) as H.
  { intros k _. split_and!; [done | done | apply not_elem_of_nil]. }
  revert H. generalize (boot d fs). induction ops as [|o ops IH]; intros s Hs; [done |].
  rewrite run_cons. by apply IH, exec_names.
Qed.

(** A stored handle or a set guard is under a key that names no inherited
    member. *)
Lemma reachable_stored st k :
  reachable st → is_Some (sessions st !! k) ∨ guard_set st k = true →
  inherited k = false.
Proof.
  intros H%reachable_names Hk. destruct (inherited k) eqn:E; [| done].
  destruct (H k E) as (H1 & H2 & _). destruct Hk as [[? Hk] | Hk]; congruence.
Qed.

(** C6: in every state the process can reach, a [/start-session] request for
    a key whose guard is set is answered at once with the success response
    "currently initializing", and the state is left exactly as it was: no
    socket is created, no document is upserted, no creation sequence is
    started. *)
Theorem start_while_initializing (env : StartEnv) (k : string) (st : State) :
  reachable st →
  guard_set st k = true →
  start_session env (Some k) st = (st, Some (currently_initializing k))
  ∧ route (GetStartSession (Some k) env) st = (st, Some (currently_initializing k))
  ∧ r_code (currently_initializing k) = 200
  ∧ r_success (currently_initializing k) = Some true
  ∧ r_connected (currently_initializing k) = Some false.
Proof.
  intros Hr Hg. destruct (reachable_guard st Hr k Hg) as [Hs Hk].
  pose proof (reachable_stored st k Hr (or_intror Hg)) as Hi.
  assert (start_session env (Some k) st = (st, Some (currently_initializing k))) as H.
  { unfold start_session.
    rewrite Hk, (proj2 (has_sock_false st k)), (guard_initializing _ _ Hg); done. }
  by split_and!.
Qed.

Lemma start_while_initializing_witness :
  let st := run [OpRequest (GetStartSession (Some "alice") start_ok)] (boot ∅ ∅) in
  awaiting st = [("alice", ByStartSession)]
  ∧ start_session start_ok (Some "alice") st = (st, Some (currently_initializing "alice")).
Proof.
  split; [reflexivity |].
  apply (start_while_initializing start_ok "alice"
           (run [OpRequest (GetStartSession (Some "alice") start_ok)] (boot ∅ ∅))).
  - exists ∅, ∅, [OpRequest (GetStartSession (Some "alice") start_ok)]. reflexivity.
  - reflexivity.
Defined.

(** ** The reconnect timer *)

Lemma initWhatsApp_begin_set_db g mk who k st :
  initWhatsApp_begin mk who k (set_db g st)
  = (set_db g (initWhatsApp_begin mk who k st).1, (initWhatsApp_begin mk who k st).2).
Proof.
  unfold initWhatsApp_begin.
  change (has_sock (set_db g st) k) with (has_sock st k).
  change (initializing (set_db g st) k) with (initializing st k).
  change (sessions (set_db g st)) with (sessions st).
  change (folders (set_initializing ?f (set_db g st))) with (folders (set_initializing f st)).
  by repeat case_match.
Qed.

Lemma take_awaiting_enqueue k who l :
  ∃ w rest, take_awaiting k (enqueue (k, who) l) = Some (w, rest).
Proof.
  unfold enqueue. induction l as [|[k' w'] l IH]; cbn.
  - rewrite String.eqb_refl. by eexists _, _.
  - destruct (String.eqb k k'); [by eexists _, _ |].
    destruct IH as (w & rest & ->). by eexists _, _.
Qed.

(** C2, as stated, fails: after the logout has removed the record of
    ["alice"], the pending reconnect callback fires and her live handle is
    back; the next pairing event then upserts her record again. *)
Lemma reconnect_after_logout_recreates :
  let st := run alice_logged_out_during_backoff (boot ∅ ∅) in
  let st' := run [OpTimer true; OpResume "alice" (resume_ok 2%nat)] st in
  db st !! "alice" = None
  ∧ sessions st !! "alice" = None
  ∧ timers st = [("alice", 5000)]
  ∧ sessions st' !! "alice" = Some 2%nat
  ∧ db (run [OpEvent "alice" (qr_event "2@raw") (event_ok QR1 9000)] st') !! "alice"
    = Some (mkDoc false (Some QR1) (Some 9000))
  ∧ ¬ reconnect_fenced st "alice".
Proof.
  split_and!; try reflexivity.
  intros H. destruct (H eq_refl eq_refl true (resume_ok 2%nat)) as [H1 _].
  vm_compute in H1. discriminate H1.
Qed.

(** C2, amended: the reconnect callback consults the registry of its key
    only, never the durable record: it behaves the same whatever the store
    holds.  When the key has a live handle or a guard it creates nothing.
    When it has neither, as after a logout, the creation sequence starts
    again (guard set, auth folder present), and once the socket is created
    the key has a live handle again; the callback itself writes nothing to
    the store. *)
Theorem reconnect_checks_registry_only (mkdir_ok : bool) (env : ResumeEnv) (k : string)
    (delay : Z) (rest : list (string * Z)) (sock : Sock) (st : State) :
  timers st = (k, delay) :: rest →
  truthy (Some k) = true →
  (∀ g, fire_timer mkdir_ok (set_db g st) = set_db g (fire_timer mkdir_ok st))
  ∧ db (fire_timer mkdir_ok st) = db st
  ∧ (has_sock st k || guard_set st k = true →
       sessions (fire_timer mkdir_ok st) = sessions st
       ∧ awaiting (fire_timer mkdir_ok st) = awaiting st
       ∧ folders (fire_timer mkdir_ok st) = folders st)
  ∧ (has_sock st k || guard_set st k = false →
     mkdir_ok = true ∨ k ∈ folders st →
       guard_set (fire_timer mkdir_ok st) k = true
       ∧ awaiting (fire_timer mkdir_ok st) = enqueue (k, ByTimer) (awaiting st)
       ∧ k ∈ folders (fire_timer mkdir_ok st)
       ∧ (re_auth_ok env = true → re_makeWASocket env = Some sock →
            sessions (resume env k (fire_timer mkdir_ok st)).1 !! k = Some sock
            ∧ db (resume env k (fire_timer mkdir_ok st)).1 = db st)).
Proof.
  intros Ht Hk. split_and!.
  - intros g. unfold fire_timer. change (timers (set_db g st)) with (timers st).
    rewrite Ht.
    change (set_timers ?f (set_db g st)) with (set_db g (set_timers f st)).
    by rewrite initWhatsApp_begin_set_db.
  - unfold fire_timer. rewrite Ht. by rewrite initWhatsApp_begin_db.
  - intros Hbusy. unfold fire_timer. rewrite Ht. unfold initWhatsApp_begin.
    rewrite Hk, has_sock_or_initializing. cbn [negb].
    change (has_sock (set_timers ?f st) k) with (has_sock st k).
    change (guard_set (set_timers ?f st) k) with (guard_set st k).
    by rewrite Hbusy.
  - intros Hfree Hdir.
    assert (fire_timer mkdir_ok st
            = set_awaiting (enqueue (k, ByTimer))
                (set_folders (λ s, {[k]} ∪ s)
                   (set_initializing <[k:=true]> (set_timers (λ _, rest) st)))) as Hfire.
    { unfold fire_timer. rewrite Ht. unfold initWhatsApp_begin.
      rewrite Hk, has_sock_or_initializing. cbn [negb].
      change (has_sock (set_timers ?f st) k) with (has_sock st k).
      change (guard_set (set_timers ?f st) k) with (guard_set st k).
      rewrite Hfree. cbn [fst folders set_initializing set_timers].
      destruct st as [ss qs gs dd fs us ts aw cs]. cbn in *.
      assert (k ∈ fs → {[k]} ∪ fs = fs) as Hin.
      { intros Hin. apply subseteq_union_1_L. by apply singleton_subseteq_l. }
      case_decide as Hf; cbn.
      - unfold set_awaiting, set_folders. cbn. by rewrite Hin.
      - destruct Hdir as [-> | ?]; done. }
    rewrite Hfire. split_and!.
    + unfold guard_set. cbn. by rewrite lookup_insert_eq.
    + done.
    + cbn. apply elem_of_union_l. by apply elem_of_singleton.
    + intros Ha Hm. unfold resume.
      cbn [awaiting set_awaiting set_folders set_initializing set_timers].
      destruct (take_awaiting_enqueue k ByTimer (awaiting st)) as (w & r & ->).
      unfold initWhatsApp_resume. rewrite Ha, Hm. cbn.
      destruct w; cbn; by rewrite lookup_insert_eq.
Qed.

Lemma reconnect_checks_registry_only_witness :
  let st := run alice_logged_out_during_backoff (boot ∅ ∅) in
  sessions (resume (resume_ok 2%nat) "alice" (fire_timer true st)).1 !! "alice" = Some 2%nat
  ∧ db (resume (resume_ok 2%nat) "alice" (fire_timer true st)).1 = db st.
Proof.
  assert (timers (run alice_logged_out_during_backoff (boot ∅ ∅)) = [("alice", 5000)])
    as Ht by reflexivity.
  destruct (reconnect_checks_registry_only true (resume_ok 2%nat) "alice" 5000 [] 2%nat
              (run alice_logged_out_during_backoff (boot ∅ ∅)) Ht eq_refl)
    as (_ & _ & _ & H).
  assert (has_sock (run alice_logged_out_during_backoff (boot ∅ ∅)) "alice"
          || guard_set (run alice_logged_out_during_backoff (boot ∅ ∅)) "alice" = false)
    as Hfree by reflexivity.
  destruct (H Hfree (or_introl eq_refl)) as (_ & _ & _ & H').
  exact (H' eq_refl eq_refl).
Defined.

(** ** The initialization guard *)

Lemma init_finally_clears k st : guard_set (init_finally k st) k = false.
Proof. unfold guard_set. cbn. by rewrite lookup_delete_eq. Qed.

(** A call that finds the guard of its key set returns early, and on its way
    out through [finally] deletes that guard. *)
Lemma early_return_clears_guard mkdir_ok who k st :
  truthy (Some k) = true → guard_set st k = true →
  initWhatsApp_begin mkdir_ok who k st = (init_finally k st, InitReturned (sessions st !! k))
  ∧ guard_set (initWhatsApp_begin mkdir_ok who k st).1 k = false.
Proof.
  intros Hk Hg. unfold initWhatsApp_begin.
  rewrite Hk, (guard_initializing _ _ Hg), orb_true_r. cbn [negb fst].
  split; [done | apply init_finally_clears].
Qed.

(** C3 fails on the code.  What holds: a creation sequence is entered only
    when the key has neither a live handle nor a guard, it sets the guard at
    entry, and the guard is gone when the sequence ends, whether it returns
    or throws.  What does not: a second call that returns early because the
    guard is set leaves through the same [finally] and deletes the guard of
    the sequence still in flight.  Here the reconnect timer of ["alice"]
    fires while her [/start-session] request is suspended inside
    [initWhatsApp]: the guard is cleared, the next [/start-session] enters a
    second creation sequence, and both sequences create a socket. *)
Theorem early_return_clears_foreign_guard :
  (∀ mkdir_ok who k st,
     (initWhatsApp_begin mkdir_ok who k st).2 = InitAwaits →
     has_sock st k = false ∧ guard_set st k = false
     ∧ guard_set (initWhatsApp_begin mkdir_ok who k st).1 k = true)
  ∧ (∀ mkdir_ok who k st,
     (initWhatsApp_begin mkdir_ok who k st).2 = InitThrew →
     guard_set (initWhatsApp_begin mkdir_ok who k st).1 k = false)
  ∧ (∀ auth_ok mk k st, guard_set (initWhatsApp_resume auth_ok mk k st).1 k = false)
  ∧ (∀ mkdir_ok who k st,
     truthy (Some k) = true → guard_set st k = true →
     (initWhatsApp_begin mkdir_ok who k st).2 = InitReturned (sessions st !! k)
     ∧ guard_set (initWhatsApp_begin mkdir_ok who k st).1 k = false)
  ∧ let st := run alice_restart_during_backoff (boot ∅ ∅) in
    let st1 := exec (OpTimer true) st in
    let st2 := exec (OpRequest (GetStartSession (Some "alice") start_ok)) st1 in
    let st3 := run [OpResume "alice" (resume_ok 2%nat); OpResume "alice" (resume_ok 3%nat)] st2 in
    guard_set st "alice" = true
    ∧ awaiting st = [("alice", ByStartSession)]
    ∧ timers st = [("alice", 5000)]
    ∧ guard_set st1 "alice" = false
    ∧ awaiting st1 = [("alice", ByStartSession)]
    ∧ awaiting st2 = [("alice", ByStartSession); ("alice", ByStartSession)]
    ∧ sessions (exec (OpResume "alice" (resume_ok 2%nat)) st2) !! "alice" = Some 2%nat
    ∧ sessions st3 !! "alice" = Some 3%nat.
Proof.
  split_and!.
  - intros mkdir_ok who k st. unfold initWhatsApp_begin.
    rewrite has_sock_or_initializing.
    destruct (negb (truthy (Some k))); [done |].
    destruct (has_sock st k) eqn:Hs; [done |].
    destruct (guard_set st k) eqn:Hg; [done |]. cbn [orb].
    repeat case_match; cbn [fst snd]; try done; intros _; split_and!; try done.
    all: unfold guard_set; cbn; by rewrite lookup_insert_eq.
  - intros mkdir_ok who k st. unfold initWhatsApp_begin.
    repeat case_match; cbn [fst snd]; try done; intros _; apply init_finally_clears.
  - intros auth_ok mk k st. unfold initWhatsApp_resume.
    repeat case_match; cbn [fst]; apply init_finally_clears.
  - intros mkdir_ok who k st Hk Hg.
    destruct (early_return_clears_guard mkdir_ok who k st Hk Hg) as [-> H]. done.
  - vm_compute. split_and!; reflexivity.
Qed.

(** ** Worked examples *)

Example base64_user_pass :
  to_base64 "admin:s3cret" = "YWRtaW46czNjcmV0"
  ∧ parse_credentials "Basic YWRtaW46czNjcmV0" = ("admin", Some "s3cret")
  ∧ basicAuth (mkConfig (Some "admin") (Some "s3cret")) (Some "Basic YWRtaW46czNjcmV0") = Next
  ∧ basicAuth (mkConfig (Some "admin") (Some "s3cret")) (Some "Basic Og==")
    = Reject (unauthorized 403).
Proof. split_and!; reflexivity. Qed.

Example split_examples :
  split ":" "" = [""] ∧ split ":" "a" = ["a"] ∧ split ":" "a:b:c" = ["a"; "b"; "c"]
  ∧ split " " "Basic  x" = ["Basic"; ""; "x"].
Proof. split_and!; reflexivity. Qed.

(** The end-to-end run of the specification: start, pairing code, open,
    send; and a send for a key that was never started. *)
Example alice_end_to_end :
  let s0 := exec (OpRequest (GetStartSession (Some "alice") start_ok)) (boot ∅ ∅) in
  let s1 := run alice_pairing (boot ∅ ∅) in
  let s2 := exec (OpEvent "alice" open_event (event_ok QR1 2000)) s1 in
  let sent := send_message true (Some "alice") (Some "1555") (Some "hi") s2 in
  (sessions s0 !! "alice" = None ∧ guard_set s0 "alice" = true)
  ∧ (db s1 !! "alice" = Some (mkDoc false (Some QR1) (Some 1000))
     ∧ qrCodes s1 !! "alice" = Some (mkQr QR1 1000))
  ∧ (db s2 !! "alice" = Some (mkDoc true None None) ∧ qrCodes s2 !! "alice" = None)
  ∧ (sent.2 = reply 200 true "Message sent successfully" None None
     ∧ calls sent.1 = [SockSendMessage 1%nat "1555@s.whatsapp.net" (Text "hi")])
  ∧ send_message true (Some "bob") (Some "1555") (Some "hi") s2 = (s2, not_connected).
Proof. vm_compute. split_and!; reflexivity. Qed.

Example health_counts_handles :
  r_activeSessions (health (run alice_started (boot ∅ ∅))) = Some 1%nat.
Proof. reflexivity. Qed.

(** * Further properties of the code *)

(** ** One key at a time *)

Lemma findOneAndUpdate_lookup_ne k k' u b m :
  k ≠ k' → findOneAndUpdate k u b m !! k' = m !! k'.
Proof.
  intros Hne. unfold findOneAndUpdate.
  destruct (m !! k); [| destruct b]; by rewrite ?lookup_insert_ne.
Qed.

Lemma same_elsewhere_refl k st : same_elsewhere k st st.
Proof. by intros k' _. Qed.

Lemma same_elsewhere_trans k st1 st2 st3 :
  same_elsewhere k st1 st2 → same_elsewhere k st2 st3 → same_elsewhere k st1 st3.
Proof. intros H1 H2 k' Hne. by rewrite (H2 k' Hne), (H1 k' Hne). Qed.

(** A step made of writes at the key [k] only. *)
Ltac elsewhere_tac :=
  intros ? ?; unfold key_view, findOneAndDelete;
  repeat case_match; simplify_eq; cbn;
  try match goal with
      | H : Some ?a ≠ Some ?b |- _ => assert (a ≠ b) by (clear -H; congruence)
      end;
  repeat first [ rewrite lookup_insert_ne by done
               | rewrite lookup_delete_ne by done
               | rewrite findOneAndUpdate_lookup_ne by done ];
  repeat match goal with |- (_, _) = (_, _) => f_equal end; try done;
  apply bool_decide_ext;
  rewrite ?elem_of_union, ?elem_of_difference, ?elem_of_singleton;
  split; intros; destruct_or?; destruct_and?; auto; congruence.

Lemma initWhatsApp_begin_elsewhere mk who k st :
  same_elsewhere (Some k) st (initWhatsApp_begin mk who k st).1.
Proof. unfold initWhatsApp_begin. elsewhere_tac. Qed.

Lemma initWhatsApp_resume_elsewhere a mk k st :
  same_elsewhere (Some k) st (initWhatsApp_resume a mk k st).1.
Proof. unfold initWhatsApp_resume. elsewhere_tac. Qed.

Lemma try_update_elsewhere ok k u b st :
  same_elsewhere (Some k) st (try_db ok (findOneAndUpdate k u b) st).
Proof. unfold try_db. elsewhere_tac. Qed.

Lemma on_connection_update_elsewhere env k u st :
  same_elsewhere (Some k) st (on_connection_update env k u st).
Proof.
  unfold on_connection_update, on_qr, on_open, on_close, cleanup_logged_out, try_db.
  elsewhere_tac.
Qed.

Lemma get_qr_elsewhere env q st : same_elsewhere q st (get_qr env q st).1.
Proof. unfold get_qr, try_db. elsewhere_tac. Qed.

Lemma get_logout_elsewhere env q st : same_elsewhere q st (get_logout env q st).1.
Proof. unfold get_logout, logoutInstance, logout_socket, try_db. elsewhere_tac. Qed.

Lemma send_message_elsewhere ok q n m st :
  same_elsewhere q st (send_message ok q n m st).1.
Proof. unfold send_message, send_via, send_throws. elsewhere_tac. Qed.

Lemma send_file_url_elsewhere env q n u c f st :
  same_elsewhere q st (send_file_url env q n u c f st).1.
Proof. unfold send_file_url, send_via, send_throws. elsewhere_tac. Qed.

Lemma send_file_elsewhere env q n c f st :
  same_elsewhere q st (send_file env q n c f st).1.
Proof.
  intros k' _. unfold send_file, send_via, send_throws, unlink_if_exists.
  repeat case_match; simplify_eq; cbn; repeat case_match; done.
Qed.

Lemma start_session_elsewhere env q st :
  same_elsewhere q st (start_session env q st).1.
Proof.
  unfold start_session. destruct q as [k|]; [| apply same_elsewhere_refl].
  destruct (negb (truthy (Some k))); [apply same_elsewhere_refl |].
  destruct (has_sock st k && ss_findOne_ok env && doc_connected (db st !! k));
    [apply same_elsewhere_refl |].
  destruct (initializing st k); [apply same_elsewhere_refl |].
  eapply same_elsewhere_trans; [apply try_update_elsewhere |].
  match goal with |- context [initWhatsApp_begin ?a ?b ?c ?s] =>
    pose proof (initWhatsApp_begin_elsewhere a b c s) as H;
    destruct (initWhatsApp_begin a b c s) as [s' []] end; exact H.
Qed.

Lemma route_elsewhere req st : same_elsewhere (request_key req) st (route req st).1.
Proof.
  destruct req; cbn [route request_key]; rewrite ?answered_fst.
  - apply start_session_elsewhere.
  - apply get_qr_elsewhere.
  - apply send_message_elsewhere.
  - apply send_file_url_elsewhere.
  - apply send_file_elsewhere.
  - apply get_logout_elsewhere.
  - apply same_elsewhere_refl.
  - apply same_elsewhere_refl.
Qed.

Lemma set_timers_elsewhere k f st : same_elsewhere k st (set_timers f st).
Proof. by intros k' _. Qed.

Lemma set_awaiting_elsewhere k f st : same_elsewhere k st (set_awaiting f st).
Proof. by intros k' _. Qed.

Lemma fire_timer_elsewhere mk st :
  same_elsewhere (fst <$> head (timers st)) st (fire_timer mk st).
Proof.
  unfold fire_timer. destruct (timers st) as [|[k d] rest]; [apply same_elsewhere_refl |].
  eapply same_elsewhere_trans; [apply set_timers_elsewhere |].
  apply initWhatsApp_begin_elsewhere.
Qed.

Lemma resume_elsewhere env k st : same_elsewhere (Some k) st (resume env k st).1.
Proof.
  unfold resume.
  destruct (take_awaiting k (awaiting st)) as [[who rest]|]; [| apply same_elsewhere_refl].
  pose proof (initWhatsApp_resume_elsewhere (re_auth_ok env) (re_makeWASocket env) k
                (set_awaiting (λ _, rest) st)) as H.
  destruct (initWhatsApp_resume _ _ _ _) as [st1 r]. cbn [fst] in H.
  assert (same_elsewhere (Some k) st st1) as H1.
  { eapply same_elsewhere_trans; [apply set_awaiting_elsewhere | exact H]. }
  destruct who, r; cbn [fst]; try done.
  eapply same_elsewhere_trans; [exact H1 | apply try_update_elsewhere].
Qed.

Lemma load_session_elsewhere mk ok k st :
  same_elsewhere (Some k) st (load_session mk ok k st).
Proof.
  unfold load_session.
  pose proof (initWhatsApp_begin_elsewhere mk ByLoadSessions k st) as H.
  destruct (initWhatsApp_begin _ _ _ _) as [st1 r]. cbn [fst] in H.
  destruct r; try done.
  eapply same_elsewhere_trans; [exact H | apply try_update_elsewhere].
Qed.

Lemma exec_elsewhere o st : same_elsewhere (op_key o st) st (exec o st).
Proof.
  destruct o as [req | k u env | mk | k env | k mk ok]; cbn [exec op_key].
  - apply route_elsewhere.
  - apply on_connection_update_elsewhere.
  - apply fire_timer_elsewhere.
  - apply resume_elsewhere.
  - apply load_session_elsewhere.
Qed.

(** X1: every operation works on one key: a request on the key of its
    query, an event, a resumed initialization or a start-up load on the key
    it belongs to, the timer callback on the key of the oldest timer.  For
    every other key the live handle, the cached code, the guard and the
    stored document are exactly as before, and so is what the handlers find
    under it in [sessions] and [initializingSessions]. *)
Theorem operations_touch_one_key (o : Op) (st : State) (k' : string) :
  op_key o st ≠ Some k' →
  registry_view k' (exec o st) = registry_view k' st
  ∧ has_sock (exec o st) k' = has_sock st k'
  ∧ initializing (exec o st) k' = initializing st k'.
Proof.
  intros Hne. pose proof (exec_elsewhere o st k' Hne) as H.
  unfold key_view in H. injection H as H1 H2 H3 H4 _.
  unfold registry_view, has_sock, initializing, js_get.
  by rewrite H1, H2, H3, H4.
Qed.

Lemma operations_touch_one_key_witness :
  let st := run (alice_pairing ++
                 [ OpRequest (GetStartSession (Some "bob") start_ok);
                   OpResume "bob" (resume_ok 2%nat) ])%list (boot ∅ ∅) in
  registry_view "bob" (exec (OpRequest (GetLogout (Some "alice") logout_ok)) st)
  = (Some 2%nat, None, None, Some (mkDoc false None None)).
Proof.
  intros st.
  destruct (operations_touch_one_key (OpRequest (GetLogout (Some "alice") logout_ok)) st "bob")
    as [-> _].
  - discriminate.
  - reflexivity.
Defined.

(** ** Loading the stored sessions at start-up *)

Lemma load_one_elsewhere env k st : same_elsewhere (Some k) st (load_one env k st).
Proof.
  unfold load_one.
  pose proof (initWhatsApp_begin_elsewhere (ld_mkdir_ok env) ByLoadSessions k st) as H.
  destruct (initWhatsApp_begin _ _ _ _) as [st1 r]. cbn [fst] in H.
  destruct r; try done.
  - eapply same_elsewhere_trans; [exact H | apply try_update_elsewhere].
  - eapply same_elsewhere_trans; [exact H | apply resume_elsewhere].
Qed.

(** The document of a key after its iteration: reset when the initialization
    threw and the update went through, untouched otherwise. *)
Lemma load_one_spec env k st :
  awaiting st = [] → sessions st !! k = None → guard_set st k = false →
  sessions (load_one env k st) !! k = load_outcome env k st
  ∧ initializingSessions (load_one env k st) !! k = None
  ∧ awaiting (load_one env k st) = []
  ∧ db (load_one env k st) !! k
    = match load_outcome env k st with
      | Some _ => db st !! k
      | None => if re_db_ok (ld_resume env) && negb (inherited k)
                then apply_update upd_placeholder <$> db st !! k
                else db st !! k
      end.
Proof.
  intros Ha Hs Hg. unfold load_one, load_outcome, initWhatsApp_begin.
  rewrite has_sock_or_initializing, Hg, orb_false_r.
  destruct (inherited k) eqn:Hi.
  { rewrite (inherited_truthy _ Hi). unfold has_sock.
    rewrite (js_get_inherited _ _ Hs Hi). cbn.
    rewrite lookup_delete_eq, andb_false_r. done. }
  rewrite (proj2 (has_sock_false st k)) by done. rewrite !andb_true_r.
  assert (∀ st0, awaiting st0 = [] →
            resume (ld_resume env) k (set_awaiting (enqueue (k, ByLoadSessions)) st0)
            = let (s, r) := initWhatsApp_resume (re_auth_ok (ld_resume env))
                              (re_makeWASocket (ld_resume env)) k
                              (set_awaiting (λ _, []) (set_awaiting (enqueue (k, ByLoadSessions)) st0)) in
              match r with
              | Some _ => (s, None)
              | None => (try_db (re_db_ok (ld_resume env))
                           (findOneAndUpdate k upd_placeholder false) s, None)
              end) as Hres.
  { intros st0 H0. unfold resume. cbn [awaiting set_awaiting]. rewrite H0. cbn.
    rewrite String.eqb_refl. by destruct (initWhatsApp_resume _ _ _ _) as [s [r|]]. }
  destruct (truthy (Some k)); cbn [negb andb folders set_initializing];
    [destruct (bool_decide (k ∈ folders st)) eqn:Hf; cbn [orb];
       [| destruct (ld_mkdir_ok env)] |];
    try (apply bool_decide_eq_true in Hf; rewrite decide_True by done);
    try (apply bool_decide_eq_false in Hf; rewrite decide_False by done);
    rewrite ?Hres by done;
    unfold initWhatsApp_resume, try_db;
    destruct (re_auth_ok (ld_resume env)), (re_makeWASocket (ld_resume env)),
      (re_db_ok (ld_resume env)); cbn;
    rewrite ?lookup_delete_eq, ?lookup_insert_eq, ?findOneAndUpdate_lookup;
    repeat split; try done; by destruct (db st !! k).
Qed.

Lemma key_view_inv k st st' :
  key_view k st' = key_view k st →
  sessions st' !! k = sessions st !! k
  ∧ initializingSessions st' !! k = initializingSessions st !! k
  ∧ db st' !! k = db st !! k
  ∧ bool_decide (k ∈ folders st') = bool_decide (k ∈ folders st).
Proof. unfold key_view. intros H. by simplify_eq. Qed.

Lemma load_outcome_view env k st st' :
  key_view k st' = key_view k st → load_outcome env k st' = load_outcome env k st.
Proof. intros (_ & _ & _ & Hf)%key_view_inv. unfold load_outcome. by rewrite Hf. Qed.

Lemma loadSessions_cons i instances st :
  loadSessions (Some (i :: instances)) st
  = loadSessions (Some instances) (load_one i.2 i.1 st).
Proof. reflexivity. Qed.

Lemma loadSessions_elsewhere instances st k :
  k ∉ instances.*1 → key_view k (loadSessions (Some instances) st) = key_view k st.
Proof.
  revert st. induction instances as [|[k0 e0] l IH]; intros st Hk; [done |].
  rewrite loadSessions_cons. cbn in Hk. apply not_elem_of_cons in Hk as [Hne Hk].
  rewrite IH by done. apply load_one_elsewhere. cbn. intros [= ->]. done.
Qed.

(** X2: [loadSessions] on a fresh process goes through the stored keys one
    after the other, and a key whose initialization throws does not stop the
    loop: every listed key ends with the socket made for it when its folder
    is there or can be made, its auth state loads and [makeWASocket] returns,
    and with no live handle otherwise; a key that failed has its document
    reset to [connected = false] without pairing code (when that update goes
    through), a key that succeeded keeps its document; no guard and no
    suspended call is left behind.  A key that names an inherited member is
    passed over: [initWhatsApp] returns at once, nothing is created and its
    document stays.  When [Session.find()] throws, nothing happens. *)
Theorem loadSessions_each_key (instances : list (string * LoadEnv)) (st : State) :
  NoDup instances.*1 →
  awaiting st = [] →
  (∀ k, k ∈ instances.*1 → sessions st !! k = None ∧ guard_set st k = false) →
  loadSessions None st = st
  ∧ awaiting (loadSessions (Some instances) st) = []
  ∧ ∀ k env, (k, env) ∈ instances →
      sessions (loadSessions (Some instances) st) !! k = load_outcome env k st
      ∧ guard_set (loadSessions (Some instances) st) k = false
      ∧ db (loadSessions (Some instances) st) !! k
        = match load_outcome env k st with
          | Some _ => db st !! k
          | None => if re_db_ok (ld_resume env) && negb (inherited k)
                    then apply_update upd_placeholder <$> db st !! k
                    else db st !! k
          end.
Proof.
  intros Hnd Ha Hfree. split; [done |].
  revert st Ha Hfree. induction instances as [|[k0 e0] l IH]; intros st Ha Hfree.
  { split; [done |]. intros k env Hin. by apply elem_of_nil in Hin. }
  cbn in Hnd. apply NoDup_cons in Hnd as [Hk0 Hnd].
  rewrite loadSessions_cons. cbn [fst snd].
  destruct (Hfree k0) as [Hs0 Hg0]; [cbn; apply elem_of_cons; by left |].
  destruct (load_one_spec e0 k0 st Ha Hs0 Hg0) as (H1 & H2 & H3 & H4).
  assert (∀ k, k ∈ l.*1 → key_view k (load_one e0 k0 st) = key_view k st) as Hview.
  { intros k Hk. apply load_one_elsewhere. intros [= ->]. done. }
  destruct (IH Hnd (load_one e0 k0 st) H3) as [IHa IHk].
  { intros k Hk. destruct (Hfree k) as [Hs Hg]; [cbn; apply elem_of_cons; by right |].
    destruct (key_view_inv _ _ _ (Hview k Hk)) as (E1 & E2 & _).
    unfold guard_set in *. by rewrite E1, E2. }
  split; [exact IHa |].
  intros k env [[= -> ->] | Hin]%elem_of_cons.
  - destruct (key_view_inv _ _ _ (loadSessions_elsewhere l (load_one e0 k0 st) k0 Hk0))
      as (E1 & E2 & E3 & _).
    unfold guard_set. by rewrite E1, E2, E3, H1, H2, H4.
  - assert (k ∈ l.*1) as Hk by (apply list_elem_of_fmap; by exists (k, env)).
    destruct (IHk k env Hin) as (R1 & R2 & R3).
    destruct (key_view_inv _ _ _ (Hview k Hk)) as (_ & _ & E3 & _).
    by rewrite R1, R2, R3, (load_outcome_view env k _ _ (Hview k Hk)), E3.
Qed.

Lemma loadSessions_each_key_witness :
  let d : gmap string SessionDoc :=
    {[ "alice" := mkDoc true None None; "bob" := mkDoc true None None ]} in
  let instances :=
    [ ("alice", mkLoadEnv true (mkResumeEnv false None true));
      ("bob", mkLoadEnv true (resume_ok 7%nat)) ] in
  sessions (loadSessions (Some instances) (boot d ∅)) !! "bob" = Some 7%nat
  ∧ sessions (loadSessions (Some instances) (boot d ∅)) !! "alice" = None
  ∧ db (loadSessions (Some instances) (boot d ∅)) !! "alice" = Some (mkDoc false None None).
Proof.
  intros d instances.
  assert (NoDup instances.*1) as Hnd by (by apply (bool_decide_unpack _)).
  assert (∀ k, k ∈ instances.*1 →
            sessions (boot d ∅) !! k = None ∧ guard_set (boot d ∅) k = false) as Hfree.
  { intros k _. split; [apply lookup_empty | unfold guard_set; cbn; by rewrite lookup_empty]. }
  destruct (loadSessions_each_key instances (boot d ∅) Hnd eq_refl Hfree) as (_ & _ & H).
  assert (("alice", mkLoadEnv true (mkResumeEnv false None true)) ∈ instances) as Ha
    by (apply elem_of_cons; by left).
  assert (("bob", mkLoadEnv true (resume_ok 7%nat)) ∈ instances) as Hb
    by (apply elem_of_cons; right; apply elem_of_cons; by left).
  destruct (H _ _ Ha) as (A1 & _ & A3). destruct (H _ _ Hb) as (B1 & _ & _).
  split_and!.
  - etrans; [exact B1 | reflexivity].
  - etrans; [exact A1 | reflexivity].
  - etrans; [exact A3 | reflexivity].
Defined.

(** ** Validation *)

(** X3: a request that lacks a required field is answered with status 400
    before anything else happens.  That is so for a missing or empty
    [instanceKey] on every route that takes one, and for a missing number,
    message, file URL or file on the send routes.  No protocol call is made
    and the lifecycle state is left as it was. *)
Theorem missing_field_is_rejected (st : State) :
  (∀ env q, truthy q = false → start_session env q st = (st, Some key_required))
  ∧ (∀ env q, truthy q = false → get_qr env q st = (st, key_required))
  ∧ (∀ env q, truthy q = false →
       get_logout env q st = (st, reply_status 400 "error" "Missing instanceKey in query."))
  ∧ (∀ ok q n m, truthy q && truthy n && truthy m = false →
       send_message ok q n m st = (st, message_required))
  ∧ (∀ env q n u c f, truthy q && truthy n && truthy u = false →
       send_file_url env q n u c f st = (st, fileUrl_required))
  ∧ (∀ env q n c, send_file env q n c None st = (st, file_required))
  ∧ (∀ env q n c f, truthy q && truthy n = false →
       (send_file env q n c (Some f) st).2 = file_required
       ∧ calls (send_file env q n c (Some f) st).1 = calls st
       ∧ lifecycle (send_file env q n c (Some f) st).1 = lifecycle st)
  ∧ r_code key_required = 400 ∧ r_code message_required = 400
  ∧ r_code fileUrl_required = 400 ∧ r_code file_required = 400.
Proof.
  split_and!; try reflexivity.
  - intros env [k|] H; [| done]. unfold start_session. by rewrite H.
  - intros env [k|] H; [| done]. unfold get_qr. by rewrite H.
  - intros env [k|] H; [| done]. unfold get_logout. by rewrite H.
  - intros ok [k|] [n|] [m|] H; try done. unfold send_message. by rewrite H.
  - intros env [k|] [n|] [u|] c f H; try done. unfold send_file_url. by rewrite H.
  - intros env q n c f H. unfold send_file. rewrite H. cbn [fst snd].
    split_and!; [done | by repeat case_match | by repeat case_match].
Qed.

(** ** Uploaded files *)

Lemma uploads_unlink ok p st :
  truthy (Some p) = true →
  uploads (unlink_if_exists ok p st) = if ok then uploads st ∖ {[p]} else uploads st.
Proof.
  intros Hp. unfold unlink_if_exists. rewrite Hp. cbn [andb].
  case_bool_decide as Hin; destruct ok; cbn; try done.
  symmetry. apply difference_disjoint_L. by apply disjoint_singleton_r.
Qed.

(** X4: [/send-file] never leaves the file multer stored behind: on every
    path (a missing field, no live handle, an unreadable file, a send that
    succeeds or fails) the file is gone afterwards, provided [fs.unlinkSync]
    does not throw; the other upload files are not touched.  When
    [unlinkSync] throws, the file stays. *)
Theorem send_file_removes_upload (env : FileEnv) (q n c : option string) (f : Upload)
    (st : State) :
  truthy (Some (up_path f)) = true →
  uploads (send_file env q n c (Some f) st).1
  = if fe_unlink_ok env then uploads st ∖ {[up_path f]} else {[up_path f]} ∪ uploads st.
Proof.
  intros Hp. unfold send_file. rewrite Hp.
  set (st0 := set_uploads _ st).
  assert (uploads st0 = {[up_path f]} ∪ uploads st) as H0 by done.
  assert (({[up_path f]} ∪ uploads st) ∖ {[up_path f]} = uploads st ∖ {[up_path f]}) as Hd.
  { apply set_eq. intros x.
    rewrite !elem_of_difference, elem_of_union, elem_of_singleton. tauto. }
  assert (∀ X : gset string, X ∖ {[up_path f]} ∖ {[up_path f]} = X ∖ {[up_path f]}) as Hdd.
  { intros X. apply set_eq. intros x. rewrite !elem_of_difference. tauto. }
  destruct (truthy q && truthy n).
  - cbv zeta. unfold send_via, send_throws.
    repeat case_match; simplify_eq; cbn [fst];
      rewrite ?uploads_unlink by done; destruct (fe_unlink_ok env);
      cbn [uploads record_call set_calls]; by rewrite ?H0, ?Hd, ?Hdd.
  - cbn [fst]. destruct (fe_unlink_ok env); cbn; by rewrite ?Hd.
Qed.

Lemma send_file_removes_upload_witness :
  uploads (send_file (mkFileEnv (Some "%PDF") true false) (Some "alice") (Some "1555") None
             (Some (mkUpload "uploads/3f2a" (Some "application/pdf") (Some "a.pdf")))
             (run alice_started (boot ∅ ∅))).1
  = ∅ ∖ {["uploads/3f2a"]}.
Proof.
  etrans.
  - apply (send_file_removes_upload (mkFileEnv (Some "%PDF") true false) (Some "alice")
             (Some "1555") None
             (mkUpload "uploads/3f2a" (Some "application/pdf") (Some "a.pdf"))
             (run alice_started (boot ∅ ∅))).
    reflexivity.
  - reflexivity.
Defined.

(** ** What a send can change *)

(** X5: a send, whether it succeeds or fails, is not a lifecycle event: the
    three send routes leave the live handles, the cached codes, the guards,
    the store, the auth folders, the timers and the suspended
    initializations exactly as they were, and make at most one protocol call;
    [/health] and an unknown route change nothing at all. *)
Theorem send_is_not_a_lifecycle_event (st : State) :
  (∀ ok q n m,
     lifecycle (send_message ok q n m st).1 = lifecycle st
     ∧ (calls (send_message ok q n m st).1 = calls st
        ∨ ∃ c, calls (send_message ok q n m st).1 = enqueue c (calls st)))
  ∧ (∀ env q n u c f,
     lifecycle (send_file_url env q n u c f st).1 = lifecycle st
     ∧ (calls (send_file_url env q n u c f st).1 = calls st
        ∨ ∃ x, calls (send_file_url env q n u c f st).1 = enqueue x (calls st)))
  ∧ (∀ env q n c f,
     lifecycle (send_file env q n c f st).1 = lifecycle st
     ∧ (calls (send_file env q n c f st).1 = calls st
        ∨ ∃ x, calls (send_file env q n c f st).1 = enqueue x (calls st)))
  ∧ (route GetHealth st).1 = st
  ∧ (route Unrouted st).1 = st.
Proof.
  split_and!; try done.
  - intros. unfold send_message, send_via, send_throws.
    repeat case_match; cbn; split; eauto.
  - intros. unfold send_file_url, send_via, send_throws.
    repeat case_match; cbn; split; eauto.
  - intros. unfold send_file, send_via, send_throws, unlink_if_exists.
    repeat case_match; simplify_eq; cbn; repeat case_match; cbn; split; eauto.
Qed.

(** ** What reaches the protocol client *)





(** ** The answers of [/qr] *)

(** X7: [/qr] only reads, except when it finds the code expired: unless the
    answer is "expired" the state is untouched, and in every case the live
    handles, the guards, the folders, the timers and the protocol log stay,
    and no document is created or deleted.  A code that is returned comes
    from the cache entry of the key or, when there is none, from its
    document; it is at most 60 seconds old, and [expiresIn] is never
    negative, and at most 60 unless the code is dated in the future. *)
Theorem qr_answer_shape (env : QrEnv) (q : option string) (st : State) :
  ((get_qr env q st).2 = qr_expired ∨ (get_qr env q st).1 = st)
  ∧ sessions (get_qr env q st).1 = sessions st
  ∧ initializingSessions (get_qr env q st).1 = initializingSessions st
  ∧ folders (get_qr env q st).1 = folders st
  ∧ timers (get_qr env q st).1 = timers st
  ∧ awaiting (get_qr env q st).1 = awaiting st
  ∧ calls (get_qr env q st).1 = calls st
  ∧ (∀ k', is_Some (db (get_qr env q st).1 !! k') ↔ is_Some (db st !! k'))
  ∧ (∀ img, r_qr (get_qr env q st).2 = Some img →
       ∃ k qd n,
         q = Some k
         ∧ (qrCodes st !! k = Some qd
            ∨ (qrCodes st !! k = None ∧ qr_from_doc (db st !! k) = Some qd))
         ∧ img = qd_qr qd
         ∧ (get_qr env q st).2 = qr_success img n
         ∧ qe_now env - generatedAt qd ≤ 60000
         ∧ 0 ≤ n
         ∧ (generatedAt qd ≤ qe_now env → n ≤ 60)).
Proof.
  unfold get_qr. destruct q as [k|]; [| by split_and!; auto].
  destruct (negb (truthy (Some k))); [by split_and!; auto |].
  match goal with |- context [doc_connected ?s && ?b] => destruct (doc_connected s && b) end;
    [by split_and!; auto |].
  assert (∀ session, resolve_qr st k session = None ∨ ∃ qd, resolve_qr st k session = Some qd
            ∧ (session = None ∨ session = db st !! k →
               qrCodes st !! k = Some qd
               ∨ (qrCodes st !! k = None ∧ qr_from_doc (db st !! k) = Some qd))) as Hres.
  { intros session. unfold resolve_qr, js_get.
    destruct (qrCodes st !! k) as [qd|]; [eauto |].
    destruct (inherited k); [by left |].
    destruct (qr_from_doc session) as [qd|] eqn:E; [| by left]. right. exists qd.
    split; [done |]. intros [-> | ->]; [done | auto]. }
  match goal with |- context [resolve_qr st k ?s] =>
    destruct (Hres s) as [-> | (qd & -> & Hsrc)];
    [destruct (js_get (qrCodes st) k); by split_and!; auto |];
    assert (qrCodes st !! k = Some qd
            ∨ (qrCodes st !! k = None ∧ qr_from_doc (db st !! k) = Some qd)) as Hfrom
      by (apply Hsrc; destruct (qe_findOne_ok env); auto)
  end.
  rewrite qrAge_expired, qrAge_floor.
  destruct (Z.ltb_spec 60000 (qe_now env - generatedAt qd)) as [Hlt | Hle]; cbn [fst snd].
  - split_and!; try (by auto); try (by destruct (qe_update_ok env)).
    intros k'. rewrite db_try_db. cbn [db set_qrCodes].
    destruct (qe_update_ok env); [| done].
    destruct (decide (k = k')) as [<- | Hne].
    + rewrite findOneAndUpdate_lookup. destruct (db st !! k); [| done].
      split; intros _; by eexists.
    + by rewrite findOneAndUpdate_lookup_ne.
  - split_and!; auto.
    intros img [= <-].
    assert ((qe_now env - generatedAt qd) / 1000 ≤ 60) by (apply Z.div_le_upper_bound; lia).
    exists k, qd, (Z.max 0 (60 - (qe_now env - generatedAt qd) / 1000)).
    split_and!; try done; try lia.
    intros Hpast.
    assert (0 ≤ (qe_now env - generatedAt qd) / 1000) by (apply Z.div_pos; lia). lia.
Qed.

(** ** Pairing: issue, connect, expire *)

Lemma on_qr_issue env k u st img :
  truthy (update_qr u) = true → ev_toDataURL env = Some img →
  on_qr env k u st
  = try_db (ev_qr_db_ok env) (findOneAndUpdate k (upd_qr img (ev_now_db env)) true)
      (set_qrCodes <[k := mkQr img (ev_now_cache env)]> st).
Proof. intros Hq Hi. unfold on_qr. by rewrite Hq, Hi. Qed.

(** X8: a pairing code that the connection issues is the one [/qr] serves:
    after a [connection.update] that carries a QR string (and neither opens
    nor closes the connection), with the image rendered and the document
    written, every [/qr] for the key within 60 seconds of the issue returns
    that image with [expiresIn = 60 - floor(age)], whatever code was cached
    or stored before; the document holds the image with [connected = false]. *)
Theorem issued_code_is_served (env : EventEnv) (qenv : QrEnv) (k : string)
    (u : ConnectionUpdate) (img : string) (st : State) :
  truthy (Some k) = true →
  truthy (update_qr u) = true →
  connection u ≠ Some ConnOpen →
  connection u ≠ Some ConnClose →
  ev_toDataURL env = Some img →
  ev_qr_db_ok env = true →
  qe_now qenv - ev_now_cache env ≤ 60000 →
  let st' := on_connection_update env k u st in
  db st' !! k = Some (mkDoc false (Some img) (Some (ev_now_db env)))
  ∧ qrCodes st' !! k = Some (mkQr img (ev_now_cache env))
  ∧ get_qr qenv (Some k) st'
    = (st', qr_success img (60 - (qe_now qenv - ev_now_cache env) / 1000)).
Proof.
  intros Hk Hq Hno Hnc Hi Hdb Hage st'.
  assert (st' = on_qr env k u st) as Hst.
  { subst st'. unfold on_connection_update. by destruct (connection u) as [[]|]. }
  rewrite Hst, (on_qr_issue env k u st img Hq Hi), Hdb. clear Hst st'.
  set (st1 := try_db true _ _).
  assert (db st1 !! k = Some (mkDoc false (Some img) (Some (ev_now_db env)))) as Hd.
  { subst st1. cbn. rewrite findOneAndUpdate_lookup. by destruct (db st !! k). }
  assert (qrCodes st1 !! k = Some (mkQr img (ev_now_cache env))) as Hc.
  { subst st1. cbn. by rewrite lookup_insert_eq. }
  split_and!; [done | done |].
  rewrite (get_qr_resolved qenv k st1 (mkQr img (ev_now_cache env)) Hk).
  - cbn [generatedAt qd_qr].
    destruct (Z.ltb_spec 60000 (qe_now qenv - ev_now_cache env)); [lia |].
    assert ((qe_now qenv - ev_now_cache env) / 1000 ≤ 60)
      by (apply Z.div_le_upper_bound; lia).
    by rewrite Z.max_r by lia.
  - destruct (qe_findOne_ok qenv); [| done]. by rewrite Hd.
  - unfold resolve_qr. by rewrite (js_get_stored _ _ _ Hc).
Qed.

Lemma issued_code_is_served_witness :
  let st' := on_connection_update (event_ok QR1 1000) "alice" (qr_event "2@raw")
               (run alice_started (boot ∅ ∅)) in
  get_qr (mkQrEnv 31500 true true) (Some "alice") st' = (st', qr_success QR1 30).
Proof.
  apply (issued_code_is_served (event_ok QR1 1000) (mkQrEnv 31500 true true) "alice"
           (qr_event "2@raw") QR1 (run alice_started (boot ∅ ∅)));
    try reflexivity; try discriminate.
Defined.

(** X9: an open event ends the pairing: with the store written, the
    document of the key is [connected] with no code and no issue time, the
    cached code is dropped, and the live handles stay as they are, even when
    the same update carries a QR string.  From then on [/qr] returns no
    code; with a live handle it answers "already connected", and so does
    [/start-session], which starts nothing. *)
Theorem open_ends_pairing (env : EventEnv) (k : string) (u : ConnectionUpdate)
    (st : State) :
  truthy (Some k) = true →
  connection u = Some ConnOpen →
  ev_open_db_ok env = true →
  let st' := on_connection_update env k u st in
  db st' !! k = Some (mkDoc true None None)
  ∧ qrCodes st' !! k = None
  ∧ sessions st' = sessions st
  ∧ (∀ qenv, r_qr (get_qr qenv (Some k) st').2 = None)
  ∧ (∀ qenv, is_Some (sessions st !! k) → qe_findOne_ok qenv = true →
       get_qr qenv (Some k) st' = (st', qr_already_connected))
  ∧ (∀ senv, is_Some (sessions st !! k) → ss_findOne_ok senv = true →
       start_session senv (Some k) st' = (st', Some (already_connected k))).
Proof.
  intros Hk Hc Hdb st'. subst st'. unfold on_connection_update. rewrite Hc.
  destruct (on_qr_frame env k u st) as (Hs & _).
  set (st1 := on_qr env k u st) in *. clearbody st1.
  unfold on_open. rewrite Hdb. set (st2 := try_db true _ _).
  assert (db st2 !! k = Some (mkDoc true None None)) as Hd.
  { subst st2. cbn. rewrite findOneAndUpdate_lookup. by destruct (db st1 !! k). }
  assert (qrCodes st2 !! k = None) as Hq by (subst st2; cbn; apply lookup_delete_eq).
  assert (sessions st2 = sessions st) as Hss by (subst st2; cbn; done).
  split_and!; try done.
  - intros qenv. unfold get_qr. rewrite Hk. cbn [negb].
    assert (∀ session, qr_from_doc session = None → resolve_qr st2 k session = None) as Hres.
    { intros session Hn. unfold resolve_qr, js_get. rewrite Hq. by destruct (inherited k). }
    destruct (qe_findOne_ok qenv).
    + rewrite Hd. cbn [doc_connected andb connected].
      destruct (has_sock st2 k); [done |]. rewrite Hres by done.
      by destruct (js_get (qrCodes st2) k).
    + cbn [doc_connected andb]. rewrite Hres by done.
      by destruct (js_get (qrCodes st2) k).
  - intros qenv [s Hsock] Hf. unfold get_qr.
    rewrite Hk, Hf, Hd, (has_sock_stored st2 k s) by (by rewrite Hss). done.
  - intros senv [s Hsock] Hf. unfold start_session.
    rewrite Hk, (has_sock_stored st2 k s) by (by rewrite Hss).
    by rewrite Hf, Hd.
Qed.

Lemma open_ends_pairing_witness :
  let st' := on_connection_update (event_ok QR1 2000) "alice" open_event
               (run alice_pairing (boot ∅ ∅)) in
  db st' !! "alice" = Some (mkDoc true None None)
  ∧ get_qr (mkQrEnv 2500 true true) (Some "alice") st' = (st', qr_already_connected).
Proof.
  destruct (open_ends_pairing (event_ok QR1 2000) "alice" open_event
              (run alice_pairing (boot ∅ ∅)) eq_refl eq_refl eq_refl)
    as (H1 & _ & _ & _ & H2 & _).
  split; [exact H1 |].
  apply H2; [by eexists | reflexivity].
Defined.

(** X10: an expired code is expired once: after [/qr] has answered "expired"
    and cleared the stored code, the next [/qr] for the key finds nothing to
    serve and nothing to clear; it changes nothing and answers "unavailable"
    (or "already connected"), never "expired" again.  Were the key one that
    names an inherited member, the next lookup would find that member, and
    the answer would be the one without a code. *)
Theorem expired_code_is_gone (env env' : QrEnv) (q : option string) (st : State) :
  (get_qr env q st).2 = qr_expired →
  qe_update_ok env = true →
  let st' := (get_qr env q st).1 in
  (get_qr env' q st').1 = st'
  ∧ ((get_qr env' q st').2 = qr_unavailable
     ∨ (get_qr env' q st').2 = qr_already_connected
     ∨ ((∃ k, q = Some k ∧ inherited k = true)
        ∧ (get_qr env' q st').2 = qr_without_code))
  ∧ r_qr (get_qr env' q st').2 = None.
Proof.
  intros Hexp Hup st'.
  assert (∃ k, q = Some k ∧ truthy (Some k) = true
               ∧ st' = try_db true (findOneAndUpdate k upd_clear_qr false)
                         (set_qrCodes (delete k) st)) as (k & -> & Hk & Hst).
  { subst st'. revert Hexp. unfold get_qr. destruct q as [k|]; [| done].
    destruct (truthy (Some k)) eqn:Hk; [| done]. cbn [negb].
    repeat (case_match; try done); intros _; exists k; by rewrite Hup. }
  clearbody st'. subst st'.
  set (st' := try_db true _ _).
  assert (qrCodes st' !! k = None) as Hq by (subst st'; cbn; apply lookup_delete_eq).
  assert (∀ session, session = None ∨ session = db st' !! k →
            resolve_qr st' k session = None) as Hres.
  { intros session Hs. unfold resolve_qr, js_get. rewrite Hq.
    destruct (inherited k); [done |].
    destruct Hs as [-> | ->]; [done |]. subst st'. cbn.
    rewrite findOneAndUpdate_lookup. by destruct (db st !! k). }
  unfold get_qr. rewrite Hk. cbn [negb].
  match goal with |- context [doc_connected ?s && ?b] => destruct (doc_connected s && b) end;
    [by split_and!; auto |].
  rewrite Hres by (destruct (qe_findOne_ok env'); auto).
  unfold js_get. rewrite Hq. destruct (inherited k) eqn:Hi; cbn [fst snd].
  - split_and!; [done | | done]. right; right. split; [by exists k | done].
  - by split_and!; auto.
Qed.

Lemma expired_code_is_gone_witness :
  let st := run alice_pairing (boot ∅ ∅) in
  let st' := (get_qr (mkQrEnv 70000 true true) (Some "alice") st).1 in
  (get_qr (mkQrEnv 71000 true true) (Some "alice") st').2 = qr_unavailable.
Proof.
  assert ((get_qr (mkQrEnv 70000 true true) (Some "alice")
             (run alice_pairing (boot ∅ ∅))).2 = qr_expired) as Hexp by reflexivity.
  destruct (expired_code_is_gone (mkQrEnv 70000 true true) (mkQrEnv 71000 true true)
              (Some "alice") (run alice_pairing (boot ∅ ∅)) Hexp eq_refl)
    as (_ & [H | [H | [_ H]]] & _).
  - exact H.
  - vm_compute in H. discriminate H.
  - vm_compute in H. discriminate H.
Defined.

(** ** Logout with a live handle, and afterwards *)

Lemma logoutInstance_state env k st :
  truthy (Some k) = true →
  (logoutInstance env k st).1
  = try_db (lo_delete_ok env) (findOneAndDelete k)
      ((if bool_decide (k ∈ folders st) && lo_rm_ok env
        then set_folders (λ s, s ∖ {[k]}) else id)
         (set_qrCodes (delete k) (set_sessions (delete k) (logout_socket k st)))).
Proof.
  intros Hk. unfold logoutInstance. rewrite Hk. cbn [negb fst].
  assert (folders (logout_socket k st) = folders st) as Hf
    by (unfold logout_socket; by repeat case_match).
  cbn [folders set_qrCodes set_sessions]. rewrite Hf.
  case_decide; rewrite ?bool_decide_eq_true_2, ?bool_decide_eq_false_2 by done;
    by destruct (lo_rm_ok env).
Qed.

(** X11: logout of a key with a live handle asks that handle, once, to log
    out, answers success whatever the protocol client, the file system or
    the store do, and leaves the key without handle and without cached
    code.  It does not cancel a pending reconnect timer, a suspended
    initialization or a guard.  A second logout makes no protocol call, and
    when the first one removed folder and document it changes nothing. *)
Theorem logout_with_handle (env env' : LogoutEnv) (k : string) (sock : Sock) (st : State) :
  truthy (Some k) = true →
  sessions st !! k = Some sock →
  let st' := (logoutInstance env k st).1 in
  (logoutInstance env k st).2
  = reply_status 200 "success" ("Instance " ++ k ++ " logged out and session removed.")
  ∧ calls st' = enqueue (SockLogout sock) (calls st)
  ∧ sessions st' = delete k (sessions st)
  ∧ qrCodes st' = delete k (qrCodes st)
  ∧ timers st' = timers st
  ∧ awaiting st' = awaiting st
  ∧ initializingSessions st' = initializingSessions st
  ∧ calls (logoutInstance env' k st').1 = calls st'
  ∧ (lo_rm_ok env = true → lo_delete_ok env = true → (logoutInstance env' k st').1 = st').
Proof.
  intros Hk Hs st'.
  assert ((logoutInstance env k st).2
          = reply_status 200 "success" ("Instance " ++ k ++ " logged out and session removed."))
    as Hr by (unfold logoutInstance; by rewrite Hk).
  subst st'. rewrite !logoutInstance_state by done.
  rewrite (logout_socket_stored _ _ _ Hs).
  set (st1 := try_db _ _ _).
  assert (sessions st1 = delete k (sessions st)) as Hs1.
  { subst st1. unfold try_db. by repeat case_match. }
  assert (sessions st1 !! k = None) as Hs1k by (rewrite Hs1; apply lookup_delete_eq).
  rewrite (logout_socket_none _ _ Hs1k).
  split_and!; try done; try (subst st1; unfold try_db; by repeat case_match).
  intros Hrm Hdel.
  assert (k ∉ folders st1) as Hf.
  { subst st1. rewrite Hrm, Hdel, andb_true_r. cbn.
    case_bool_decide; cbn; [| done].
    rewrite elem_of_difference, elem_of_singleton. tauto. }
  assert (db st1 !! k = None) as Hd.
  { subst st1. rewrite Hdel. cbn. apply lookup_delete_eq. }
  assert (qrCodes st1 !! k = None) as Hq.
  { subst st1. unfold try_db. repeat case_match; cbn; apply lookup_delete_eq. }
  rewrite bool_decide_eq_false_2 by done. cbn [andb id].
  clearbody st1. destruct st1 as [ss qs gs d fs us ts aw cs]. cbn in *.
  unfold try_db, set_db, set_qrCodes, set_sessions, findOneAndDelete. cbn.
  rewrite (delete_id ss), (delete_id qs) by done.
  destruct (lo_delete_ok env'); [by rewrite (delete_id d) | done].
Qed.

Lemma logout_with_handle_witness :
  let st := run alice_pairing (boot ∅ ∅) in
  calls (logoutInstance logout_ok "alice" st).1 = [SockLogout 1%nat]
  ∧ (logoutInstance logout_ok "alice" (logoutInstance logout_ok "alice" st).1).1
    = (logoutInstance logout_ok "alice" st).1.
Proof.
  assert (sessions (run alice_pairing (boot ∅ ∅)) !! "alice" = Some 1%nat) as Hs
    by reflexivity.
  destruct (logout_with_handle logout_ok logout_ok "alice" 1%nat
              (run alice_pairing (boot ∅ ∅)) eq_refl Hs)
    as (_ & H1 & _ & _ & _ & _ & _ & _ & H2).
  split; [exact H1 | exact (H2 eq_refl eq_refl)].
Defined.

(** X12: once a key that names no inherited member is logged out, it is
    gone for the routes, whatever call threw during the logout: every send
    for it answers "not connected" and calls nothing; and with the document
    deleted, [/qr] answers "unavailable" and [/start-session] starts from
    scratch, with a new placeholder document, unless a creation sequence for
    the key is still in flight. *)
Theorem after_logout (env : LogoutEnv) (k : string) (st : State) :
  truthy (Some k) = true →
  inherited k = false →
  let st' := (logoutInstance env k st).1 in
  (∀ ok n m, truthy (Some n) = true → truthy (Some m) = true →
     send_message ok (Some k) (Some n) (Some m) st' = (st', not_connected))
  ∧ (∀ uenv n u c f, truthy (Some n) = true → truthy (Some u) = true →
     send_file_url uenv (Some k) (Some n) (Some u) c f st' = (st', not_connected))
  ∧ (∀ fenv n c f, truthy (Some n) = true →
     (send_file fenv (Some k) (Some n) c (Some f) st').2 = not_connected
     ∧ calls (send_file fenv (Some k) (Some n) c (Some f) st').1 = calls st')
  ∧ (lo_delete_ok env = true →
     (∀ qenv, get_qr qenv (Some k) st' = (st', qr_unavailable))
     ∧ (∀ senv, guard_set st k = false → ss_upsert_ok senv = true →
          db (start_session senv (Some k) st').1 !! k = Some (mkDoc false None None)
          ∧ (ss_mkdir_ok senv = true →
               (start_session senv (Some k) st').2 = None
               ∧ guard_set (start_session senv (Some k) st').1 k = true))).
Proof.
  intros Hk Hi st'.
  assert (sessions st' !! k = None) as Hs.
  { subst st'. rewrite logoutInstance_state by done. unfold try_db.
    repeat case_match; cbn; apply lookup_delete_eq. }
  assert (qrCodes st' !! k = None) as Hq.
  { subst st'. rewrite logoutInstance_state by done. unfold try_db.
    repeat case_match; cbn; apply lookup_delete_eq. }
  assert (initializingSessions st' = initializingSessions st) as Hg.
  { subst st'. rewrite logoutInstance_state by done. unfold try_db, logout_socket.
    by repeat case_match. }
  assert (lo_delete_ok env = true → db st' !! k = None) as Hd.
  { intros Hdel. subst st'. rewrite logoutInstance_state by done. rewrite Hdel.
    cbn. apply lookup_delete_eq. }
  clearbody st'. split_and!.
  - intros ok n m Hn Hm. unfold send_message.
    by rewrite Hk, Hn, Hm, (js_get_missing _ _ Hs Hi).
  - intros uenv n u c f Hn Hu. unfold send_file_url.
    by rewrite Hk, Hn, Hu, (js_get_missing _ _ Hs Hi).
  - intros fenv n c f Hn. unfold send_file. rewrite Hk, Hn. simpl.
    rewrite (js_get_missing _ _ Hs Hi). cbn [fst snd].
    by rewrite !unlink_if_exists_calls.
  - intros Hdel. specialize (Hd Hdel). split.
    + intros qenv. unfold get_qr, resolve_qr.
      rewrite Hk, (js_get_missing _ _ Hq Hi), Hd. cbn [negb].
      by destruct (qe_findOne_ok qenv).
    + intros senv Hfree Hup.
      assert (guard_set st' k = false) as Hfree'
        by (unfold guard_set in *; by rewrite Hg).
      unfold start_session.
      rewrite Hk, (proj2 (has_sock_false st' k)), initializing_guard, Hfree', Hup by done.
      cbn [negb andb].
      unfold initWhatsApp_begin. rewrite Hk, has_sock_or_initializing. cbn [negb].
      change (has_sock (try_db true ?f st') k) with (has_sock st' k).
      change (guard_set (try_db true ?f st') k) with (guard_set st' k).
      rewrite (proj2 (has_sock_false st' k)), Hfree' by done. cbn [orb].
      assert (findOneAndUpdate k upd_placeholder true (db st') !! k
              = Some (mkDoc false None None)) as Hdoc
        by (by rewrite findOneAndUpdate_lookup, Hd).
      case_decide; [| destruct (ss_mkdir_ok senv)]; cbn [fst snd];
        (split; [exact Hdoc |]); try done;
        intros _; (split; [done |]); unfold guard_set; cbn; by rewrite lookup_insert_eq.
Qed.

Lemma after_logout_witness :
  let st' := (logoutInstance logout_ok "alice" (run alice_pairing (boot ∅ ∅))).1 in
  send_message true (Some "alice") (Some "1555") (Some "hi") st' = (st', not_connected)
  ∧ get_qr (mkQrEnv 5000 true true) (Some "alice") st' = (st', qr_unavailable).
Proof.
  destruct (after_logout logout_ok "alice" (run alice_pairing (boot ∅ ∅)) eq_refl eq_refl)
    as (H1 & _ & _ & H2).
  split; [exact (H1 true "1555" "hi" eq_refl eq_refl) |].
  exact (proj1 (H2 eq_refl) (mkQrEnv 5000 true true)).
Defined.

(** ** A start that fails *)


(** ** Timers and protocol calls *)

Lemma initWhatsApp_begin_quiet mk who k st :
  timers (initWhatsApp_begin mk who k st).1 = timers st
  ∧ calls (initWhatsApp_begin mk who k st).1 = calls st.
Proof. unfold initWhatsApp_begin. by repeat case_match. Qed.

Lemma initWhatsApp_resume_quiet a mk k st :
  timers (initWhatsApp_resume a mk k st).1 = timers st
  ∧ calls (initWhatsApp_resume a mk k st).1 = calls st.
Proof. unfold initWhatsApp_resume. by repeat case_match. Qed.

Lemma try_db_quiet ok f st :
  timers (try_db ok f st) = timers st ∧ calls (try_db ok f st) = calls st.
Proof. by destruct ok. Qed.

Lemma start_session_quiet env q st :
  timers (start_session env q st).1 = timers st
  ∧ calls (start_session env q st).1 = calls st.
Proof.
  unfold start_session. repeat (case_match; try done); simplify_eq; cbn [fst].
  all: match goal with
       | H : initWhatsApp_begin ?a ?b ?c ?s = (?s', _) |- _ =>
           pose proof (initWhatsApp_begin_quiet a b c s) as Hb; rewrite H in Hb;
           cbn [fst] in Hb; destruct Hb as [-> ->]
       end; apply try_db_quiet.
Qed.

Lemma get_qr_quiet env q st :
  timers (get_qr env q st).1 = timers st ∧ calls (get_qr env q st).1 = calls st.
Proof. unfold get_qr, try_db. by repeat case_match. Qed.

Lemma route_timers req st : timers (route req st).1 = timers st.
Proof.
  destruct req; cbn [route]; rewrite ?answered_fst; try done.
  - apply start_session_quiet.
  - apply get_qr_quiet.
  - unfold send_message, send_via, send_throws. by repeat case_match.
  - unfold send_file_url, send_via, send_throws. by repeat case_match.
  - unfold send_file, send_via, send_throws, unlink_if_exists.
    repeat case_match; simplify_eq; cbn; by repeat case_match.
  - unfold get_logout, logoutInstance, logout_socket, try_db. by repeat case_match.
Qed.

(** X14: reconnects are scheduled by one thing only, a close event whose
    reason is not the remote logout, which appends one timer of 5000 ms for
    its key; the timer callback takes the oldest timer away, whatever
    [initWhatsApp] then does; every other operation, logout included, leaves
    the timers as they are.  And the protocol client is called by the sends
    and the logout only: requests for a session or a code, connection
    events, timers, resumed initializations and the start-up loading never
    call it. *)
Theorem timers_and_protocol_calls (o : Op) (st : State) :
  timers (exec o st)
  = match o with
    | OpTimer _ => tail (timers st)
    | _ => match schedules_reconnect o with
           | Some k => enqueue (k, 5000) (timers st)
           | None => timers st
           end
    end
  ∧ (talks_to_client o = false → calls (exec o st) = calls st).
Proof.
  destruct o as [req | k u env | mk | k env | k mk ok]; cbn [exec schedules_reconnect].
  - split; [apply route_timers |].
    destruct req; cbn [talks_to_client route]; rewrite ?answered_fst; try done; intros _.
    + apply start_session_quiet.
    + apply get_qr_quiet.
  - split; [| intros _].
    + unfold on_connection_update.
      destruct (on_qr_frame env k u st) as (_ & _ & Ht & _).
      destruct (connection u) as [[]|]; try done.
      * unfold on_open. by rewrite (proj1 (try_db_quiet _ _ _)).
      * unfold on_close, cleanup_logged_out, try_db. rewrite <- Ht.
        by repeat case_match.
    + unfold on_connection_update, on_qr, on_open, on_close, cleanup_logged_out, try_db.
      by repeat case_match.
  - unfold fire_timer. destruct (timers st) as [|[k d] rest] eqn:Ht;
      [by rewrite Ht |].
    destruct (initWhatsApp_begin_quiet mk ByTimer k (set_timers (λ _, rest) st)) as [-> ->].
    done.
  - unfold resume.
    destruct (take_awaiting k (awaiting st)) as [[who rest]|]; [| done].
    pose proof (initWhatsApp_resume_quiet (re_auth_ok env) (re_makeWASocket env) k
                  (set_awaiting (λ _, rest) st)) as [H1 H2].
    destruct (initWhatsApp_resume _ _ _ _) as [st1 r]. cbn [fst] in *.
    destruct who, r; cbn [fst]; rewrite ?(proj1 (try_db_quiet _ _ _)),
      ?(proj2 (try_db_quiet _ _ _)); by rewrite ?H1, ?H2.
  - unfold load_session.
    pose proof (initWhatsApp_begin_quiet mk ByLoadSessions k st) as [H1 H2].
    destruct (initWhatsApp_begin _ _ _ _) as [st1 r]. cbn [fst] in *.
    destruct r; rewrite ?(proj1 (try_db_quiet _ _ _)), ?(proj2 (try_db_quiet _ _ _));
      by rewrite ?H1, ?H2.
Qed.

(** ** Credentials *)

(** X15: [basicAuth] lets a request through only with a header that starts
    with ["Basic "], and only when the configured user name and password are
    7-bit ASCII and hold no [':']: the decoded credentials are read as
    ASCII and cut at every [':'], so a password with a colon or with a
    character outside ASCII can never be matched, and every request is
    turned away (401 or 403). *)
Theorem auth_needs_plain_credentials (cfg : Config) (authorization : option string) :
  basicAuth cfg authorization = Next →
  (∃ authHeader, authorization = Some authHeader
                 ∧ String.prefix "Basic " authHeader = true)
  ∧ no_colon (USERNAME cfg) = true ∧ no_colon (PASSWORD cfg) = true
  ∧ is_ascii (USERNAME cfg) = true ∧ is_ascii (PASSWORD cfg) = true.
Proof.
  unfold basicAuth. destruct authorization as [h|]; [| done].
  destruct (String.prefix "Basic " h) eqn:Hp; [| by rewrite orb_true_r].
  destruct (negb (truthy (Some h))); [done |]. cbn [negb orb].
  unfold parse_credentials.
  set (credentials := from_base64_ascii _).
  pose proof (split_pieces ":" credentials) as Hall.
  destruct (split ":" credentials) as [|u [|p rest]]; cbn [lookup list_lookup default];
    try (by rewrite andb_false_r).
  apply Forall_cons in Hall as [[Hu1 Hu2] Hall].
  apply Forall_cons in Hall as [[Hp1 Hp2] _]. change (id u) with u.
  destruct (String.eqb_spec u (USERNAME cfg)) as [<- |]; [| done].
  destruct (String.eqb_spec p (PASSWORD cfg)) as [<- |]; [| done].
  intros _. unfold no_colon. rewrite !includes_char, Hu1, Hp1.
  pose proof (from_base64_is_ascii
                (default "" (split " " h !! 1%nat))) as Ha.
  split_and!; try done; [by exists h | by apply Hu2 | by apply Hp2].
Qed.

Lemma auth_needs_plain_credentials_witness :
  no_colon (USERNAME (mkConfig (Some "admin") (Some "s3cret"))) = true
  ∧ is_ascii (PASSWORD (mkConfig (Some "admin") (Some "s3cret"))) = true.
Proof.
  destruct (auth_needs_plain_credentials (mkConfig (Some "admin") (Some "s3cret"))
              (Some "Basic YWRtaW46czNjcmV0") eq_refl) as (_ & H1 & _ & _ & H2).
  by split.
Defined.

(** ** The credentials a client encodes *)

(** X16: for credentials a client encodes the standard way, a 7-bit user
    name without [':'] and a 7-bit password, as
    ["Basic " + base64(user + ":" + password)], [basicAuth] calls [next()]
    exactly when the user name is the configured one and the password, up
    to its first [':'], is the configured one; otherwise it answers 403.  So
    the configured pair, when it is plain, always gets in, and so does the
    configured password followed by [':'] and anything. *)
Theorem encoded_credentials (cfg : Config) (user password : string) :
  is_ascii user = true →
  is_ascii password = true →
  no_colon user = true →
  basicAuth cfg (Some (basic_header user password))
  = (if String.eqb user (USERNAME cfg) && String.eqb (first_piece password) (PASSWORD cfg)
     then Next else Reject (unauthorized 403))
  ∧ (no_colon password = true → first_piece password = password).
Proof.
  intros Hu Hp Hc. split.
  - unfold basicAuth.
    assert (String.prefix "Basic " (basic_header user password) = true) as Hpre
      by apply prefix_app.
    rewrite Hpre, (prefix_truthy "Basic " _ eq_refl Hpre). cbn [negb orb].
    by rewrite parse_basic_header.
  - intros Hn. unfold first_piece. rewrite split_whole; [done |].
    unfold no_colon in Hn. rewrite includes_char in Hn. by apply negb_true_iff.
Qed.

Lemma encoded_credentials_witness :
  basicAuth (mkConfig (Some "admin") (Some "s3cret")) (Some (basic_header "admin" "s3cret"))
  = Next
  ∧ basicAuth (mkConfig (Some "admin") (Some "s3cret"))
      (Some (basic_header "admin" "s3cret:anything")) = Next
  ∧ basicAuth (mkConfig (Some "admin") (Some "s3cret")) (Some (basic_header "admin" "guess"))
    = Reject (unauthorized 403).
Proof.
  split_and!.
  - exact (proj1 (encoded_credentials (mkConfig (Some "admin") (Some "s3cret"))
                    "admin" "s3cret" eq_refl eq_refl eq_refl)).
  - exact (proj1 (encoded_credentials (mkConfig (Some "admin") (Some "s3cret"))
                    "admin" "s3cret:anything" eq_refl eq_refl eq_refl)).
  - exact (proj1 (encoded_credentials (mkConfig (Some "admin") (Some "s3cret"))
                    "admin" "guess" eq_refl eq_refl eq_refl)).
Defined.

(** ** Guards and suspended sequences *)

Lemma keeps_sequences_inv st st' :
  keeps_sequences st st' → guard_has_sequence st → guard_has_sequence st'.
Proof.
  intros [Hg Ha] Hinv k Hk. rewrite Ha. apply Hinv.
  unfold guard_set in *. by rewrite <- Hg.
Qed.

Lemma initWhatsApp_begin_sequence mk who k st :
  guard_has_sequence st → guard_has_sequence (initWhatsApp_begin mk who k st).1.
Proof.
  intros Hinv. unfold initWhatsApp_begin.
  assert (∀ s, guard_has_sequence s → awaiting (init_finally k s) = awaiting s →
               guard_has_sequence (init_finally k s)) as Hfin.
  { intros s Hs Ha k' [Hne Hk']%guard_set_deleted. rewrite Ha. by apply Hs. }
  assert (∀ s, guard_has_sequence s → guard_has_sequence (init_catch k s)) as Hcatch.
  { intros s Hs. by apply (keeps_sequences_inv s). }
  assert (∀ s, guard_has_sequence s →
               guard_has_sequence
                 (set_awaiting (enqueue (k, who)) (set_initializing <[k:=true]> s))) as Hnew.
  { intros s Hs k'. unfold guard_set, enqueue. cbn. rewrite fmap_app, elem_of_app.
    rewrite lookup_insert. case_decide as Hkk.
    - subst k'. intros _. right. cbn. by apply list_elem_of_singleton.
    - intros Hk'. left. by apply Hs. }
  repeat case_match; cbn [fst]; auto.
  - apply (keeps_sequences_inv (set_awaiting (enqueue (k, who)) (set_initializing <[k:=true]> st)));
      [done | auto].
  - intros k' [Hne Hk']%guard_set_deleted. cbn. apply Hinv.
    revert Hk'. unfold guard_set. cbn. by rewrite lookup_insert_ne.
Qed.

Lemma take_awaiting_others k l who rest k' :
  take_awaiting k l = Some (who, rest) → k' ≠ k → k' ∈ l.*1 → k' ∈ rest.*1.
Proof.
  revert who rest. induction l as [|[k0 w0] l IH]; intros who rest; [done |].
  cbn [take_awaiting]. destruct (String.eqb_spec k k0) as [<- | Hne].
  - intros [= <- <-] Hk'. cbn. rewrite elem_of_cons. intros [? | ?]; [done | done].
  - destruct (take_awaiting k l) as [[w r]|]; [| done].
    intros [= <- <-] Hk'. cbn. rewrite !elem_of_cons.
    intros [-> | Hin]; [by left |]. right. by apply (IH w r).
Qed.

Lemma resume_sequence env k st :
  guard_has_sequence st → guard_has_sequence (resume env k st).1.
Proof.
  intros Hinv. unfold resume.
  destruct (take_awaiting k (awaiting st)) as [[who rest]|] eqn:Ht; [| done].
  assert (guard_has_sequence
            (initWhatsApp_resume (re_auth_ok env) (re_makeWASocket env) k
               (set_awaiting (λ _, rest) st)).1) as H1.
  { unfold initWhatsApp_resume.
    repeat case_match; cbn [fst]; intros k' [Hne Hk']%guard_set_deleted; cbn;
      apply (take_awaiting_others k (awaiting st) who rest k' Ht); try done;
      by apply Hinv. }
  destruct (initWhatsApp_resume _ _ _ _) as [st1 r]. cbn [fst] in H1.
  destruct who, r; cbn [fst]; try done.
  apply (keeps_sequences_inv st1); [apply try_db_keeps | done].
Qed.

Lemma exec_sequence o st : guard_has_sequence st → guard_has_sequence (exec o st).
Proof.
  intros Hinv. destruct o as [req | k u env | mk | k env | k mk ok]; cbn [exec].
  - destruct req; cbn [route]; rewrite ?answered_fst; try done.
    + unfold start_session. repeat (case_match; try done); simplify_eq; cbn [fst].
      all: match goal with
           | H : initWhatsApp_begin ?a ?b ?c ?s = (?s', _) |- _ =>
               replace s' with (initWhatsApp_begin a b c s).1 by (by rewrite H)
           end; apply initWhatsApp_begin_sequence;
           (apply (keeps_sequences_inv st); [apply try_db_keeps | done]).
    + apply (keeps_sequences_inv st); [apply get_qr_keeps | done].
    + apply (keeps_sequences_inv st); [apply send_message_keeps | done].
    + apply (keeps_sequences_inv st); [apply send_file_url_keeps | done].
    + apply (keeps_sequences_inv st); [apply send_file_keeps | done].
    + apply (keeps_sequences_inv st); [apply get_logout_keeps | done].
  - apply (keeps_sequences_inv st); [apply on_connection_update_keeps | done].
  - unfold fire_timer. destruct (timers st) as [|[k d] rest]; [done |].
    apply initWhatsApp_begin_sequence. by apply (keeps_sequences_inv st).
  - by apply resume_sequence.
  - unfold load_session.
    pose proof (initWhatsApp_begin_sequence mk ByLoadSessions k st Hinv) as H.
    destruct (initWhatsApp_begin _ _ _ _) as [st1 r]. cbn [fst] in H.
    destruct r; try done. apply (keeps_sequences_inv st1); [apply try_db_keeps | done].
Qed.

Lemma reachable_sequence st : reachable st → guard_has_sequence st.
Proof.
  intros (d & fs & ops & ->).
  assert (guard_has_sequence (boot d fs)) as H by (intros k'; by unfold guard_set).
  revert H. generalize (boot d fs). induction ops as [|o ops IH]; intros s Hs; [done |].
  rewrite run_cons. by apply IH, exec_sequence.
Qed.

(** X17: a guard never outlives its creation sequence: in every state the
    process can reach, a key whose guard is set has an [initWhatsApp] call
    suspended at its [await], and that call clears the guard when it goes on;
    no request, event or timer leaves a guard behind that nothing will
    clear. *)
Theorem guard_belongs_to_a_sequence (st : State) (k : string) :
  reachable st →
  guard_set st k = true →
  (∃ who, (k, who) ∈ awaiting st)
  ∧ ∀ env, guard_set (resume env k st).1 k = false.
Proof.
  intros Hinv%reachable_sequence Hg.
  pose proof (Hinv k Hg) as Hin.
  apply list_elem_of_fmap in Hin as ([k0 who] & -> & Hin). cbn in *.
  split; [by exists who |].
  intros env. unfold resume.
  assert (∃ w r, take_awaiting k0 (awaiting st) = Some (w, r)) as (w & r & ->).
  { clear -Hin. induction (awaiting st) as [|[k1 w1] l IH]; [by apply elem_of_nil in Hin |].
    cbn [take_awaiting]. destruct (String.eqb_spec k0 k1) as [<- | Hne]; [by eexists _, _ |].
    apply elem_of_cons in Hin as [[= -> ->] | Hin]; [done |].
    destruct (IH Hin) as (w & r & ->). by eexists _, _. }
  pose proof (init_finally_clears k0) as Hc.
  unfold initWhatsApp_resume.
  destruct (re_auth_ok env), (re_makeWASocket env), w; cbn [fst]; try apply Hc.
  all: unfold guard_set, try_db; destruct (re_db_ok env); cbn; by rewrite lookup_delete_eq.
Qed.

Lemma guard_belongs_to_a_sequence_witness :
  let st := run [OpRequest (GetStartSession (Some "alice") start_ok)] (boot ∅ ∅) in
  (∃ who, ("alice", who) ∈ awaiting st)
  ∧ ∀ env, guard_set (resume env "alice" st).1 "alice" = false.
Proof.
  apply (guard_belongs_to_a_sequence
           (run [OpRequest (GetStartSession (Some "alice") start_ok)] (boot ∅ ∅)) "alice").
  - exists ∅, ∅, [OpRequest (GetStartSession (Some "alice") start_ok)]. reflexivity.
  - reflexivity.
Defined.

(** ** Starting a key that is already live *)

(** X18: [/start-session] for a key that has a live handle never makes a
    second socket: it answers at once, and the live handles, the cached
    codes and the suspended sequences stay as they are.  When the document
    says connected (and can be read) the answer is "already connected" and
    nothing changes; otherwise the answer is "Session started", and the
    document is reset to [connected = false] without pairing code although
    the cached code stays. *)
Theorem start_with_live_handle (env : StartEnv) (k : string) (sock : Sock) (st : State) :
  reachable st →
  truthy (Some k) = true →
  sessions st !! k = Some sock →
  let st' := (start_session env (Some k) st).1 in
  sessions st' = sessions st
  ∧ qrCodes st' = qrCodes st
  ∧ awaiting st' = awaiting st
  ∧ calls st' = calls st
  ∧ (ss_findOne_ok env && doc_connected (db st !! k) = true →
       start_session env (Some k) st = (st, Some (already_connected k)))
  ∧ (ss_findOne_ok env && doc_connected (db st !! k) = false →
       (start_session env (Some k) st).2 = Some (session_started k)
       ∧ (ss_upsert_ok env = true → db st' !! k = Some (mkDoc false None None))).
Proof.
  intros Hr Hk Hs st'.
  assert (guard_set st k = false) as Hg.
  { destruct (guard_set st k) eqn:E; [| done].
    destruct (reachable_guard st Hr k E) as [Hn _]. congruence. }
  pose proof (reachable_stored st k Hr (or_introl (mk_is_Some _ _ Hs))) as Hi.
  subst st'. unfold start_session.
  rewrite Hk, (has_sock_stored _ _ _ Hs), initializing_guard, Hg by done.
  cbn [negb andb].
  destruct (ss_findOne_ok env && doc_connected (db st !! k)) eqn:Hc; [by split_and! |].
  unfold initWhatsApp_begin. rewrite Hk. cbn [negb].
  assert (sessions (try_db (ss_upsert_ok env) (findOneAndUpdate k upd_placeholder true) st)
          = sessions st) as Hss by (by destruct (ss_upsert_ok env)).
  rewrite (has_sock_stored _ k sock) by (by rewrite Hss). cbn [orb fst snd].
  split_and!; try done; try (by destruct (ss_upsert_ok env)).
  intros _. split; [done |]. intros ->. cbn.
  rewrite findOneAndUpdate_lookup. by destruct (db st !! k).
Qed.

Lemma start_with_live_handle_witness :
  let st := run alice_pairing (boot ∅ ∅) in
  (start_session start_ok (Some "alice") st).2 = Some (session_started "alice")
  ∧ sessions (start_session start_ok (Some "alice") st).1 = sessions st.
Proof.
  intros st.
  assert (reachable st) as Hr by (exists ∅, ∅, alice_pairing; reflexivity).
  assert (sessions st !! "alice" = Some 1%nat) as Hs by reflexivity.
  destruct (start_with_live_handle start_ok "alice" 1%nat st Hr eq_refl Hs)
    as (H1 & _ & _ & _ & _ & H2).
  split; [| exact H1]. apply H2. reflexivity.
Defined.
